(** * Furniture catalog backend: product store and product service

    A shallow embedding of
      - [backend/src/instances/product/productStore.ts]  (class ProductStore),
      - [backend/src/services/product/productValidation.ts] (the zod schemas),
      - [backend/src/services/product/productService.ts]  (the five operations),
      - [backend/src/constants/product/productDefaults.ts],
      - [frontend/src/domain/product/stores/catalogStore.ts] (the actions),
      - [frontend/.../components/CatalogPagination/main.tsx] (the links),
    followed by the properties of the list pipeline, of the identifier
    counter, of the CRUD operations and of the client's pagination.

    Conventions of the embedding.
      - A JavaScript number is an exact rational ([Q]) or [NaN]; integers
        that the code only ever counts with (identifiers, page numbers,
        lengths, millisecond timestamps) are [Z].  Infinite numbers and the
        loss of precision above 2^53 are not modelled.
      - An ISO-8601 timestamp string is represented by the millisecond count
        it denotes: [new Date(d.toISOString()).getTime() = d.getTime()].
      - The clock ([new Date()]) is an explicit argument [now].
      - A string is a sequence of characters; [.length] counts the
        characters of the model.
      - A JavaScript [Map] keeps insertion order, so the store's map is an
        association list.
      - The service functions mutate the singleton store and may throw; they
        are computations in a state-and-exception monad whose state survives
        a throw, as the store survives a rejected promise. *)

From Stdlib Require Import ZArith QArith Qround List String Bool Lia Sorted.
From Stdlib Require Import Lqa Permutation.
Import ListNotations.
Local Open Scope Z_scope.
Local Open Scope string_scope.

Set Implicit Arguments.

(** ** JavaScript values *)

Inductive number : Type :=
| NaN
| Num (q : Q).

(** The values an [unknown] argument can hold. *)
#[warnings="-register-all"]
Inductive jsval : Type :=
| JUndefined
| JNull
| JBool (b : bool)
| JNumber (n : number)
| JString (s : string)
| JArray (elems : list jsval)
| JObject (props : list (string * jsval)).

(** What the service takes from the JavaScript runtime and from zod's string
    checks, none of which is code of the repository. *)
Class Runtime : Type := {
  (** [Number(s)] for a string [s] *)
  StringToNumber : string -> number;
  (** [Number(v)] for an array or an object [v] *)
  ObjectToNumber : jsval -> number;
  (** zod's [.url()]: [new URL(s)] does not throw *)
  is_url : string -> bool;
  (** [a.localeCompare(b)] *)
  localeCompare : string -> string -> Z
}.

(** [Number(v)], as [z.coerce.number()] calls it. *)
Definition ToNumber {rt : Runtime} (v : jsval) : number :=
  match v with
  | JUndefined => NaN
  | JNull => Num 0
  | JBool true => Num 1
  | JBool false => Num 0
  | JNumber n => n
  | JString s => StringToNumber s
  | JArray _ | JObject _ => ObjectToNumber v
  end.

(** [Number.isInteger] on a finite number. *)
Definition isInteger (q : Q) : bool := Qeq_bool q (inject_Z (Qfloor q)).

(** Property read [o[k]]: [undefined] when the key is absent. *)
Fixpoint prop (props : list (string * jsval)) (k : string) : jsval :=
  match props with
  | [] => JUndefined
  | (k', v) :: rest => if String.eqb k' k then v else prop rest k
  end.

(** Truthiness, for the [||] fallbacks of the service. *)
Definition truthy_array (A : Type) (a : list A) : bool := true.
Definition truthy_string (s : string) : bool := negb (String.eqb s "").
Definition truthy_number (n : Z) : bool := negb (Z.eqb n 0).

(** [a || b] for each operand type the service uses it with. *)
Definition or_array (A : Type) (a b : list A) : list A :=
  if truthy_array a then a else b.
Definition or_number (a b : Z) : Z :=
  if truthy_number a then a else b.
Definition or_string (a : option string) (b : string) : string :=
  match a with
  | Some s => if truthy_string s then s else b
  | None => b
  end.

(** [a ?? b] on a value that may be [undefined]. *)
Definition nullish (A : Type) (a : option A) (b : A) : A :=
  match a with
  | Some x => x
  | None => b
  end.

(** [Math.floor(a / b)] and [Math.ceil(a / b)] on integer operands. *)
Definition Math_floor_div (a b : Z) : Z := Qfloor (inject_Z a / inject_Z b).
Definition Math_ceil_div (a b : Z) : Z := Qceiling (inject_Z a / inject_Z b).

(** ** Constants: [productDefaults.ts] *)

Module PRODUCT_DEFAULTS.
Definition AVAILABLE : bool := true.
Definition FEATURED : bool := false.
Definition ON_SALE : bool := false.
Definition MAX_RECORDS : Z := 10000.
End PRODUCT_DEFAULTS.

Module PRODUCT_CATEGORIES.
Definition LIVING_ROOM : string := "sala de estar".
Definition BEDROOM : string := "quarto".
Definition KITCHEN : string := "cozinha".
Definition OFFICE : string := "escritório".
Definition BATHROOM : string := "banheiro".
Definition OUTDOOR : string := "área externa".
End PRODUCT_CATEGORIES.

Module PRODUCT_LIMITS.
Definition NAME_MAX_LENGTH : nat := 60.
Definition DESCRIPTION_MAX_LENGTH : nat := 500.
Definition SHORT_DESCRIPTION_MAX_LENGTH : nat := 150.
Definition DIMENSIONS_MAX_LENGTH : nat := 50.
End PRODUCT_LIMITS.

(** ** The entity: [ProductRecord] / [ProductEntity] *)

Record ProductRecord : Type := {
  id : Z;
  name : string;
  description : option string;
  mainImage : string;
  images : list string;
  price : option Q;
  category : string;
  shortDescription : option string;
  dimensions : option string;
  featured : bool;
  isNew : bool;
  onSale : bool;
  available : bool;
  dateCreated : Z;
  dateModified : Z
}.

Definition ProductEntity : Type := ProductRecord.

(** [Partial<ProductRecord>]: [None] is an absent key. *)
Record PartialProductRecord : Type := {
  p_id : option Z;
  p_name : option string;
  p_description : option (option string);
  p_mainImage : option string;
  p_images : option (list string);
  p_price : option (option Q);
  p_category : option string;
  p_shortDescription : option (option string);
  p_dimensions : option (option string);
  p_featured : option bool;
  p_isNew : option bool;
  p_onSale : option bool;
  p_available : option bool;
  p_dateCreated : option Z;
  p_dateModified : option Z
}.

(** The object spread [{ ...existing, ...data }]. *)
Definition spread (existing : ProductRecord) (data : PartialProductRecord)
  : ProductRecord :=
  {| id := nullish (p_id data) (id existing);
     name := nullish (p_name data) (name existing);
     description := nullish (p_description data) (description existing);
     mainImage := nullish (p_mainImage data) (mainImage existing);
     images := nullish (p_images data) (images existing);
     price := nullish (p_price data) (price existing);
     category := nullish (p_category data) (category existing);
     shortDescription :=
       nullish (p_shortDescription data) (shortDescription existing);
     dimensions := nullish (p_dimensions data) (dimensions existing);
     featured := nullish (p_featured data) (featured existing);
     isNew := nullish (p_isNew data) (isNew existing);
     onSale := nullish (p_onSale data) (onSale existing);
     available := nullish (p_available data) (available existing);
     dateCreated := nullish (p_dateCreated data) (dateCreated existing);
     dateModified := nullish (p_dateModified data) (dateModified existing) |}.

(** [ProductListItem]: the projection returned by the list operation. *)
Record ProductListItem : Type := {
  item_id : Z;
  item_name : string;
  item_mainImage : string;
  item_price : option Q;
  item_category : string;
  item_featured : bool;
  item_isNew : bool;
  item_onSale : bool;
  item_available : bool
}.

Record PaginationMeta : Type := {
  page : Z;
  pageSize : Z;
  total : Z;
  totalPages : Z;
  hasNext : bool;
  hasPrevious : bool
}.

Record ProductListResponse : Type := {
  items : list ProductListItem;
  pagination : PaginationMeta
}.

(** ** The JavaScript [Map] of the store, in insertion order *)

Section JsMap.
Variable V : Type.

Definition JsMap : Type := list (Z * V).

Fixpoint Map_get (m : JsMap) (k : Z) : option V :=
  match m with
  | [] => None
  | (k', v) :: rest => if Z.eqb k' k then Some v else Map_get rest k
  end.

Definition Map_has (m : JsMap) (k : Z) : bool :=
  match Map_get m k with
  | Some _ => true
  | None => false
  end.

(** [set] overwrites an existing key where it stands and appends a new one. *)
Fixpoint Map_set (m : JsMap) (k : Z) (v : V) : JsMap :=
  match m with
  | [] => [(k, v)]
  | (k', v') :: rest =>
      if Z.eqb k' k then (k, v) :: rest else (k', v') :: Map_set rest k v
  end.

(** [delete] removes the key and tells whether it was there. *)
Fixpoint Map_delete (m : JsMap) (k : Z) : JsMap :=
  match m with
  | [] => []
  | (k', v') :: rest =>
      if Z.eqb k' k then rest else (k', v') :: Map_delete rest k
  end.

Definition Map_size (m : JsMap) : Z := Z.of_nat (List.length m).

Definition Map_values (m : JsMap) : list V := map snd m.
End JsMap.

(** ** The store: [class ProductStore] *)

Record ProductStore : Type := {
  records : JsMap ProductRecord;
  currentId : Z
}.

(** [new ProductStore()] *)
Definition new_ProductStore : ProductStore :=
  {| records := []; currentId := 0 |}.

(** What a call can throw: the service's [ServiceError(code, message,
    statusCode)] or a plain [Error(message)]. *)
Inductive Error : Type :=
| ServiceError (code : string) (statusCode : Z)
| PlainError (message : string).

Inductive Outcome (A : Type) : Type :=
| Returned (a : A)
| Thrown (e : Error).

Arguments Thrown {A} e.

(** Computations over the singleton store. *)
Definition M (A : Type) : Type := ProductStore -> Outcome A * ProductStore.

Definition ret (A : Type) (a : A) : M A := fun s => (Returned a, s).

Definition throw (A : Type) (e : Error) : M A := fun s => (Thrown e, s).

Arguments throw {A} e.

Definition bind (A B : Type) (c : M A) (k : A -> M B) : M B :=
  fun s =>
    match c s with
    | (Returned a, s') => k a s'
    | (Thrown e, s') => (Thrown e, s')
    end.

Notation "x <- c ;; k" := (bind c (fun x => k))
  (at level 61, c at next level, right associativity).
Notation "c ;;; k" := (bind c (fun _ => k))
  (at level 61, right associativity).

Module productStore.

Definition getNextId : M Z := fun s =>
  let s' := {| records := records s; currentId := currentId s + 1 |} in
  (Returned (currentId s'), s').

Definition getAll : M (list ProductRecord) := fun s =>
  (Returned (Map_values (records s)), s).

Definition getById (k : Z) : M (option ProductRecord) := fun s =>
  (Returned (Map_get (records s) k), s).

Definition add (record : ProductRecord) : M ProductRecord := fun s =>
  if Z.geb (Map_size (records s)) PRODUCT_DEFAULTS.MAX_RECORDS
  then (Thrown (PlainError "Maximum products limit reached"), s)
  else (Returned record,
        {| records := Map_set (records s) (id record) record;
           currentId := currentId s |}).

Definition update (k : Z) (data : PartialProductRecord)
  : M (option ProductRecord) := fun s =>
  match Map_get (records s) k with
  | None => (Returned None, s)
  | Some existing =>
      let updated := spread existing data in
      (Returned (Some updated),
       {| records := Map_set (records s) k updated;
          currentId := currentId s |})
  end.

Definition delete (k : Z) : M bool := fun s =>
  (Returned (Map_has (records s) k),
   {| records := Map_delete (records s) k; currentId := currentId s |}).

Definition exists_ (k : Z) : M bool := fun s =>
  (Returned (Map_has (records s) k), s).

Definition count : M Z := fun s => (Returned (Map_size (records s)), s).

Definition clear : M unit := fun s =>
  (Returned tt, {| records := []; currentId := 0 |}).

End productStore.

(** ** The zod schemas: [productValidation.ts]

    A schema's [safeParse] is a function from the raw value to the parsed
    data, [None] when [success] is false (the list of issues is not kept). *)

Definition and_then (A B : Type) (o : option A) (k : A -> option B)
  : option B :=
  match o with
  | Some a => k a
  | None => None
  end.

Notation "x <~ o ;; k" := (and_then o (fun x => k))
  (at level 61, o at next level, right associativity).

Section Zod.
Context {rt : Runtime}.

Definition Schema (A : Type) : Type := jsval -> option A.

Definition z_string : Schema string := fun v =>
  match v with
  | JString s => Some s
  | _ => None
  end.

Definition z_boolean : Schema bool := fun v =>
  match v with
  | JBool b => Some b
  | _ => None
  end.

(** [z.number()] rejects [NaN]. *)
Definition z_number : Schema Q := fun v =>
  match v with
  | JNumber (Num q) => Some q
  | _ => None
  end.

(** [z.coerce.number()]: [z.number()] on [Number(input)]. *)
Definition z_coerce_number : Schema Q := fun v =>
  z_number (JNumber (ToNumber v)).

(** A check chained on a schema: [.min], [.max], [.url], [.int],
    [.positive], [.refine]. *)
Definition z_refine (A : Type) (s : Schema A) (ok : A -> bool) : Schema A :=
  fun v =>
    match s v with
    | Some a => if ok a then Some a else None
    | None => None
    end.

Definition z_min (n : nat) (s : string) : bool := (n <=? String.length s)%nat.
Definition z_max (n : nat) (s : string) : bool := (String.length s <=? n)%nat.
Definition z_url (s : string) : bool := is_url s.
Definition z_positive (q : Q) : bool := negb (Qle_bool q 0).
Definition z_int (q : Q) : bool := isInteger q.

(** [.transform(f)] *)
Definition z_transform (A B : Type) (s : Schema A) (f : A -> B) : Schema B :=
  fun v => option_map f (s v).

(** [.nullable()]: [null] parses to [null]. *)
Definition z_nullable (A : Type) (s : Schema A) : Schema (option A) := fun v =>
  match v with
  | JNull => Some None
  | _ => option_map Some (s v)
  end.

(** [.optional()]: [undefined] parses to [undefined]. *)
Definition z_optional (A : Type) (s : Schema A) : Schema (option A) := fun v =>
  match v with
  | JUndefined => Some None
  | _ => option_map Some (s v)
  end.

(** [s.optional().default(d)]: an [undefined] input is replaced by [d]
    before parsing, and every [d] of the schemas below passes its inner
    schema; any other input is parsed by [s]. *)
Definition z_optional_default (A : Type) (s : Schema A) (d : A) : Schema A :=
  fun v =>
    match v with
    | JUndefined => Some d
    | _ => s v
    end.

Fixpoint parse_all (A : Type) (s : Schema A) (vs : list jsval)
  : option (list A) :=
  match vs with
  | [] => Some []
  | v :: rest =>
      a <~ s v ;;
      l <~ parse_all s rest ;;
      Some (a :: l)
  end.

Definition z_array (A : Type) (s : Schema A) : Schema (list A) := fun v =>
  match v with
  | JArray elems => parse_all s elems
  | _ => None
  end.

Definition z_enum (values : list string) : Schema string :=
  z_refine z_string (fun s => existsb (String.eqb s) values).

Definition categories : list string :=
  [ PRODUCT_CATEGORIES.LIVING_ROOM; PRODUCT_CATEGORIES.BEDROOM;
    PRODUCT_CATEGORIES.KITCHEN; PRODUCT_CATEGORIES.OFFICE;
    PRODUCT_CATEGORIES.BATHROOM; PRODUCT_CATEGORIES.OUTDOOR ].

(** The parsed body of a create or of an update request: [CreateInput]
    and [UpdateInput] have the same fields once the defaults are in. *)
Record ProductInput : Type := {
  in_name : string;
  in_description : option string;
  in_mainImage : string;
  in_images : list string;
  in_price : option Q;
  in_category : string;
  in_shortDescription : option string;
  in_dimensions : option string;
  in_featured : bool;
  in_onSale : bool;
  in_available : bool
}.

Definition CreateInput : Type := ProductInput.
Definition UpdateInput : Type := ProductInput.

(** [z.object] takes the declared keys of an object and drops the others. *)
Definition createSchema : Schema CreateInput := fun body =>
  match body with
  | JObject o =>
      name <~ z_refine (z_refine z_string (z_min 1))
                (z_max PRODUCT_LIMITS.NAME_MAX_LENGTH) (prop o "name") ;;
      description <~ z_nullable (z_refine z_string
                (z_max PRODUCT_LIMITS.DESCRIPTION_MAX_LENGTH))
                (prop o "description") ;;
      mainImage <~ z_refine z_string z_url (prop o "mainImage") ;;
      images <~ z_optional_default (z_array (z_refine z_string z_url)) []
                (prop o "images") ;;
      price <~ z_nullable (z_refine z_number z_positive) (prop o "price") ;;
      category <~ z_enum categories (prop o "category") ;;
      shortDescription <~ z_nullable (z_refine z_string
                (z_max PRODUCT_LIMITS.SHORT_DESCRIPTION_MAX_LENGTH))
                (prop o "shortDescription") ;;
      dimensions <~ z_nullable (z_refine z_string
                (z_max PRODUCT_LIMITS.DIMENSIONS_MAX_LENGTH))
                (prop o "dimensions") ;;
      featured <~ z_optional_default z_boolean false (prop o "featured") ;;
      onSale <~ z_optional_default z_boolean false (prop o "onSale") ;;
      available <~ z_optional_default z_boolean true (prop o "available") ;;
      Some {| in_name := name; in_description := description;
              in_mainImage := mainImage; in_images := images;
              in_price := price; in_category := category;
              in_shortDescription := shortDescription;
              in_dimensions := dimensions; in_featured := featured;
              in_onSale := onSale; in_available := available |}
  | _ => None
  end.

Definition updateSchema : Schema UpdateInput := fun body =>
  match body with
  | JObject o =>
      name <~ z_refine (z_refine z_string (z_min 1))
                (z_max PRODUCT_LIMITS.NAME_MAX_LENGTH) (prop o "name") ;;
      description <~ z_nullable (z_refine z_string
                (z_max PRODUCT_LIMITS.DESCRIPTION_MAX_LENGTH))
                (prop o "description") ;;
      mainImage <~ z_refine z_string z_url (prop o "mainImage") ;;
      images <~ z_optional_default (z_array (z_refine z_string z_url)) []
                (prop o "images") ;;
      price <~ z_nullable (z_refine z_number z_positive) (prop o "price") ;;
      category <~ z_enum categories (prop o "category") ;;
      shortDescription <~ z_nullable (z_refine z_string
                (z_max PRODUCT_LIMITS.SHORT_DESCRIPTION_MAX_LENGTH))
                (prop o "shortDescription") ;;
      dimensions <~ z_nullable (z_refine z_string
                (z_max PRODUCT_LIMITS.DIMENSIONS_MAX_LENGTH))
                (prop o "dimensions") ;;
      featured <~ z_boolean (prop o "featured") ;;
      onSale <~ z_boolean (prop o "onSale") ;;
      available <~ z_boolean (prop o "available") ;;
      Some {| in_name := name; in_description := description;
              in_mainImage := mainImage; in_images := images;
              in_price := price; in_category := category;
              in_shortDescription := shortDescription;
              in_dimensions := dimensions; in_featured := featured;
              in_onSale := onSale; in_available := available |}
  | _ => None
  end.

(** [ParamsInput].  A number that passed [.int()] is read as an integer
    with [Qfloor], here and in [listQuerySchema]. *)
Definition paramsSchema : Schema Z := fun params =>
  match params with
  | JObject o =>
      n <~ z_refine (z_refine z_coerce_number z_int) z_positive (prop o "id") ;;
      Some (Qfloor n)
  | _ => None
  end.

Definition sortOrders : list string :=
  [ "newest"; "name-asc"; "name-desc"; "price-asc"; "price-desc" ].

Definition pageSizes : list Z := [12; 24; 36; 48].

Record ListQueryInput : Type := {
  f_category : option string;
  f_sort : option string;
  f_page : Z;
  f_pageSize : Z;
  f_available : option bool;
  f_featured : option bool
}.

(** The [page] and [pageSize] entries of [listQuerySchema]. *)
Definition pageSchema : Schema Z :=
  z_optional_default
    (z_transform (z_refine (z_refine z_coerce_number z_int) z_positive)
       Qfloor)
    1.

Definition pageSizeSchema : Schema Z :=
  z_optional_default
    (z_refine (z_transform (z_refine z_coerce_number z_int) Qfloor)
       (fun val => existsb (Z.eqb val) pageSizes)) 12.

Definition listQuerySchema : Schema ListQueryInput := fun query =>
  match query with
  | JObject o =>
      category <~ z_optional (z_enum categories) (prop o "category") ;;
      sort <~ z_optional (z_enum sortOrders) (prop o "sort") ;;
      page <~ pageSchema (prop o "page") ;;
      pageSize <~ pageSizeSchema (prop o "pageSize") ;;
      available <~ z_optional
                (z_transform z_string (fun val => String.eqb val "true"))
                (prop o "available") ;;
      featured <~ z_optional
                (z_transform z_string (fun val => String.eqb val "true"))
                (prop o "featured") ;;
      Some {| f_category := category; f_sort := sort; f_page := page;
              f_pageSize := pageSize; f_available := available;
              f_featured := featured |}
  | _ => None
  end.

End Zod.

(** ** Array methods used by the service *)

Section ArrayMethods.
Variable A : Type.

(** [Array.prototype.sort(comparefn)], a stable sort driven by the sign of
    [comparefn]: [comparefn(x, y) <= 0] keeps [x] before [y].  Modelled as
    insertion into the sorted suffix.  Where a comparator is not consistent
    (the price comparator answers 1 both ways between two records without
    a price) the order among the elements it does not separate is the
    engine's own; no property below depends on that order. *)
Fixpoint insert_sorted (comparefn : A -> A -> Q) (x : A) (l : list A)
  : list A :=
  match l with
  | [] => [x]
  | y :: rest =>
      if Qle_bool (comparefn x y) 0
      then x :: y :: rest
      else y :: insert_sorted comparefn x rest
  end.

Definition Array_sort (comparefn : A -> A -> Q) (l : list A) : list A :=
  fold_right (insert_sorted comparefn) [] l.

(** [Array.prototype.slice(start, end)] with its clamping of both ends. *)
Definition Array_slice (l : list A) (start stop : Z) : list A :=
  let len := Z.of_nat (List.length l) in
  let k := if Z.ltb start 0 then Z.max (len + start) 0 else Z.min start len in
  let final := if Z.ltb stop 0 then Z.max (len + stop) 0 else Z.min stop len in
  firstn (Z.to_nat (final - k)) (skipn (Z.to_nat k) l).
End ArrayMethods.

(** ** The service: [productService.ts] *)

Definition VALIDATION_ERROR : Error := ServiceError "VALIDATION_ERROR" 400.
Definition NOT_FOUND : Error := ServiceError "NOT_FOUND" 404.

(** One day in milliseconds: [1000 * 60 * 60 * 24]. *)
Definition MS_PER_DAY : Z := 1000 * 60 * 60 * 24.

Section Service.
Context {rt : Runtime}.

(** The three filters of [productList], in the order of the source. *)
Definition apply_filters (filters : ListQueryInput)
  (products : list ProductRecord) : list ProductRecord :=
  let products :=
    match f_category filters with
    | Some c =>
        if truthy_string c
        then filter (fun p => String.eqb (category p) c) products
        else products
    | None => products
    end in
  let products :=
    match f_available filters with
    | Some a => filter (fun p => Bool.eqb (available p) a) products
    | None => products
    end in
  match f_featured filters with
  | Some f => filter (fun p => Bool.eqb (featured p) f) products
  | None => products
  end.

(** The comparator handed to [products.sort]. *)
Definition compareProducts (sortOrder : string) (a b : ProductRecord) : Q :=
  if featured a && negb (featured b) then (-1)%Q
  else if negb (featured a) && featured b then 1%Q
  else if String.eqb sortOrder "newest" then
    inject_Z (dateCreated b - dateCreated a)
  else if String.eqb sortOrder "name-asc" then
    inject_Z (localeCompare (name a) (name b))
  else if String.eqb sortOrder "name-desc" then
    inject_Z (localeCompare (name b) (name a))
  else if String.eqb sortOrder "price-asc" then
    match price a, price b with
    | None, _ => 1%Q
    | Some _, None => (-1)%Q
    | Some pa, Some pb => (pa - pb)%Q
    end
  else if String.eqb sortOrder "price-desc" then
    match price a, price b with
    | None, _ => 1%Q
    | Some _, None => (-1)%Q
    | Some pa, Some pb => (pb - pa)%Q
    end
  else 0%Q.

Definition toListItem (p : ProductRecord) : ProductListItem :=
  {| item_id := id p;
     item_name := name p;
     item_mainImage := mainImage p;
     item_price := price p;
     item_category := category p;
     item_featured := featured p;
     item_isNew := isNew p;
     item_onSale := onSale p;
     item_available := available p |}.

Definition productList (query : jsval) : M ProductListResponse :=
  match listQuerySchema query with
  | None => throw VALIDATION_ERROR
  | Some filters =>
      products <- productStore.getAll ;;
      let products := apply_filters filters products in
      let sortOrder := or_string (f_sort filters) "newest" in
      let products := Array_sort (compareProducts sortOrder) products in
      let total := Z.of_nat (List.length products) in
      let page := or_number (f_page filters) 1 in
      let pageSize := or_number (f_pageSize filters) 12 in
      let totalPages := Math_ceil_div total pageSize in
      let offset := (page - 1) * pageSize in
      let paginatedProducts :=
        Array_slice products offset (offset + pageSize) in
      let items := map toListItem paginatedProducts in
      ret {| items := items;
             pagination :=
               {| page := page;
                  pageSize := pageSize;
                  total := total;
                  totalPages := totalPages;
                  hasNext := Z.ltb page totalPages;
                  hasPrevious := Z.gtb page 1 |} |}
  end.

Definition productGet (params : jsval) : M ProductEntity :=
  match paramsSchema params with
  | None => throw VALIDATION_ERROR
  | Some k =>
      product <- productStore.getById k ;;
      match product with
      | None => throw NOT_FOUND
      | Some p => ret p
      end
  end.

Definition productCreate (body : jsval) (now : Z) : M ProductEntity :=
  match createSchema body with
  | None => throw VALIDATION_ERROR
  | Some params =>
      k <- productStore.getNextId ;;
      let isNew := true in
      let newProduct :=
        {| id := k;
           name := in_name params;
           description := in_description params;
           mainImage := in_mainImage params;
           images := or_array (in_images params) [];
           price := in_price params;
           category := in_category params;
           shortDescription := in_shortDescription params;
           dimensions := in_dimensions params;
           featured :=
             nullish (Some (in_featured params)) PRODUCT_DEFAULTS.FEATURED;
           isNew := isNew;
           onSale :=
             nullish (Some (in_onSale params)) PRODUCT_DEFAULTS.ON_SALE;
           available :=
             nullish (Some (in_available params)) PRODUCT_DEFAULTS.AVAILABLE;
           dateCreated := now;
           dateModified := now |} in
      productStore.add newProduct ;;;
      ret newProduct
  end.

(** The result is [updated as ProductEntity]: the cast keeps whatever the
    store's [update] returned, [undefined] included. *)
Definition productUpdate (params body : jsval) (now : Z)
  : M (option ProductEntity) :=
  match paramsSchema params with
  | None => throw VALIDATION_ERROR
  | Some k =>
      match updateSchema body with
      | None => throw VALIDATION_ERROR
      | Some updateData =>
          existing <- productStore.getById k ;;
          match existing with
          | None => throw NOT_FOUND
          | Some existing =>
              let daysSinceCreation :=
                Math_floor_div (now - dateCreated existing) MS_PER_DAY in
              let isNew := Z.leb daysSinceCreation 30 in
              updated <- productStore.update k
                {| p_id := None;
                   p_name := Some (in_name updateData);
                   p_description := Some (in_description updateData);
                   p_mainImage := Some (in_mainImage updateData);
                   p_images :=
                     Some (or_array (in_images updateData)
                             (images existing));
                   p_price := Some (in_price updateData);
                   p_category := Some (in_category updateData);
                   p_shortDescription :=
                     Some (in_shortDescription updateData);
                   p_dimensions := Some (in_dimensions updateData);
                   p_featured := Some (in_featured updateData);
                   p_isNew := Some isNew;
                   p_onSale := Some (in_onSale updateData);
                   p_available := Some (in_available updateData);
                   p_dateCreated := None;
                   p_dateModified := Some now |} ;;
              ret updated
          end
      end
  end.

Definition productDelete (params : jsval) : M string :=
  match paramsSchema params with
  | None => throw VALIDATION_ERROR
  | Some k =>
      found <- productStore.exists_ k ;;
      if negb found then throw NOT_FOUND
      else
        productStore.delete k ;;;
        ret "Product deleted successfully"
  end.

End Service.

(** ** Sequences of calls *)

(** The public methods of the store, as data. *)
Inductive StoreCall : Type :=
| CallGetNextId
| CallGetAll
| CallGetById (k : Z)
| CallAdd (record : ProductRecord)
| CallUpdate (k : Z) (data : PartialProductRecord)
| CallDelete (k : Z)
| CallExists (k : Z)
| CallCount
| CallClear.

Definition is_clear (c : StoreCall) : bool :=
  match c with
  | CallClear => true
  | _ => false
  end.

(** One call on the store: the identifier it handed out, if it is
    [getNextId], and the store it leaves. *)
Definition run_call (c : StoreCall) (s : ProductStore)
  : option Z * ProductStore :=
  match c with
  | CallGetNextId =>
      match productStore.getNextId s with
      | (Returned k, s') => (Some k, s')
      | (Thrown _, s') => (None, s')
      end
  | CallGetAll => (None, snd (productStore.getAll s))
  | CallGetById k => (None, snd (productStore.getById k s))
  | CallAdd record => (None, snd (productStore.add record s))
  | CallUpdate k data => (None, snd (productStore.update k data s))
  | CallDelete k => (None, snd (productStore.delete k s))
  | CallExists k => (None, snd (productStore.exists_ k s))
  | CallCount => (None, snd (productStore.count s))
  | CallClear => (None, snd (productStore.clear s))
  end.

(** The identifiers handed out along a sequence of calls, oldest first. *)
Fixpoint allocated (calls : list StoreCall) (s : ProductStore) : list Z :=
  match calls with
  | [] => []
  | c :: rest =>
      match run_call c s with
      | (Some k, s') => k :: allocated rest s'
      | (None, s') => allocated rest s'
      end
  end.

(** The stores a process can be in: [new ProductStore()] and whatever the
    methods make of it. *)
Inductive reachable : ProductStore -> Prop :=
| reachable_new : reachable new_ProductStore
| reachable_call (c : StoreCall) (s : ProductStore) :
    reachable s -> reachable (snd (run_call c s)).

(** The five operations of the service, as data. *)
Inductive ServiceCall : Type :=
| List_ (query : jsval)
| Get (params : jsval)
| Create (body : jsval) (now : Z)
| Update (params body : jsval) (now : Z)
| Delete (params : jsval).

(** What a service call throws, if it throws, and the store it leaves. *)
Definition run_service {rt : Runtime} (c : ServiceCall) (s : ProductStore)
  : option Error * ProductStore :=
  let thrown (A : Type) (r : Outcome A * ProductStore) :=
    match r with
    | (Returned _, s') => (None, s')
    | (Thrown e, s') => (Some e, s')
    end in
  match c with
  | List_ query => thrown _ (productList query s)
  | Get params => thrown _ (productGet params s)
  | Create body now => thrown _ (productCreate body now s)
  | Update params body now => thrown _ (productUpdate params body now s)
  | Delete params => thrown _ (productDelete params s)
  end.

(** ** Example data *)

(** A runtime for the examples.  It agrees with JavaScript on the strings
    the examples use: plain decimal numerals, http(s) URLs, ASCII names. *)
Fixpoint digits (s : string) (acc : Z) : option Z :=
  match s with
  | EmptyString => Some acc
  | String c rest =>
      let n := Z.of_nat (Ascii.nat_of_ascii c) - 48 in
      if Z.leb 0 n && Z.leb n 9 then digits rest (10 * acc + n) else None
  end.

Definition example_runtime : Runtime :=
  {| StringToNumber := fun s =>
       match s with
       | EmptyString => Num 0
       | _ => match digits s 0 with
              | Some n => Num (inject_Z n)
              | None => NaN
              end
       end;
     ObjectToNumber := fun _ => NaN;
     is_url := fun s =>
       String.prefix "http://" s || String.prefix "https://" s;
     localeCompare := fun a b =>
       match String.compare a b with
       | Lt => -1
       | Eq => 0
       | Gt => 1
       end |}.

Definition example_record (k : Z) (isFeatured : bool) (cost : option Q)
  (created : Z) : ProductRecord :=
  {| id := k;
     name := "Sofa";
     description := None;
     mainImage := "https://example.com/sofa.jpg";
     images := ["https://example.com/sofa-2.jpg"];
     price := cost;
     category := PRODUCT_CATEGORIES.LIVING_ROOM;
     shortDescription := None;
     dimensions := None;
     featured := isFeatured;
     isNew := true;
     onSale := false;
     available := true;
     dateCreated := created;
     dateModified := created |}.

(** A body accepted by both [createSchema] and [updateSchema]; it has no
    [images] key. *)
Definition example_props : list (string * jsval) :=
  [ ("name", JString "Mesa");
    ("description", JNull);
    ("mainImage", JString "https://example.com/mesa.jpg");
    ("price", JNumber (Num 1200));
    ("category", JString PRODUCT_CATEGORIES.KITCHEN);
    ("shortDescription", JNull);
    ("dimensions", JNull);
    ("featured", JBool false);
    ("onSale", JBool false);
    ("available", JBool true) ].

Definition example_body : jsval := JObject example_props.

(** The entity that creating [example_body] at time [now] yields, and the
    one that updating a record with it yields. *)
Definition example_created (k now : Z) : ProductRecord :=
  {| id := k;
     name := "Mesa";
     description := None;
     mainImage := "https://example.com/mesa.jpg";
     images := [];
     price := Some 1200%Q;
     category := PRODUCT_CATEGORIES.KITCHEN;
     shortDescription := None;
     dimensions := None;
     featured := false;
     isNew := true;
     onSale := false;
     available := true;
     dateCreated := now;
     dateModified := now |}.

Definition example_updated (k : Z) (stillNew : bool) (created now : Z)
  : ProductRecord :=
  {| id := k;
     name := "Mesa";
     description := None;
     mainImage := "https://example.com/mesa.jpg";
     images := [];
     price := Some 1200%Q;
     category := PRODUCT_CATEGORIES.KITCHEN;
     shortDescription := None;
     dimensions := None;
     featured := false;
     isNew := stillNew;
     onSale := false;
     available := true;
     dateCreated := created;
     dateModified := now |}.

Definition id_params (k : Z) : jsval :=
  JObject [("id", JNumber (Num (inject_Z k)))].

(** A featured record without a price and a plain record with one. *)
Definition two_products : ProductStore :=
  {| records := [ (1, example_record 1 true None 1000);
                  (2, example_record 2 false (Some 100%Q) 2000) ];
     currentId := 2 |}.

(** One record, created at time 0. *)
Definition one_product : ProductStore :=
  {| records := [ (1, example_record 1 false (Some 100%Q) 0) ];
     currentId := 1 |}.

(** The store after a first create, at time 7, through the service. *)
Definition after_create : ProductStore :=
  snd (run_service (rt := example_runtime) (Create example_body 7)
         new_ProductStore).

(** A store holding [MAX_RECORDS] records. *)
Definition full_store : ProductStore :=
  {| records :=
       map (fun n => (Z.of_nat n, example_record (Z.of_nat n) false None 0))
         (seq 1 (Z.to_nat PRODUCT_DEFAULTS.MAX_RECORDS));
     currentId := PRODUCT_DEFAULTS.MAX_RECORDS |}.

(** ** Orderings of a returned page *)

(** Every featured item stands before every item that is not featured. *)
Definition featured_first (l : list ProductListItem) : Prop :=
  forall i j x y,
    nth_error l i = Some x -> nth_error l j = Some y ->
    item_featured x = true -> item_featured y = false ->
    (i < j)%nat.



(** A rank that a comparator never contradicts: it puts no element before
    one of a lower rank.  Between elements of one rank it may answer
    anything. *)
Definition respects (A : Type) (comparefn : A -> A -> Q) (rank : A -> nat)
  : Prop :=
  forall a b,
    if Qle_bool (comparefn a b) 0
    then (rank a <= rank b)%nat
    else (rank b <= rank a)%nat.

Definition by_rank (A : Type) (rank : A -> nat) (a b : A) : Prop :=
  (rank a <= rank b)%nat.

(** Ranks that the comparator of [productList] orders by: the featured
    flag, and below it the absence of a price. *)
Definition featured_rank (isFeatured : bool) : nat :=
  if isFeatured then 0%nat else 1%nat.

Definition price_rank (isFeatured : bool) (cost : option Q) : nat :=
  ((if isFeatured then 0 else 2) +
   match cost with
   | Some _ => 0
   | None => 1
   end)%nat.

Definition sort_query (sortOrder : string) : jsval :=
  JObject [("sort", JString sortOrder)].

(** The specification's reading of the freshness rule on update. *)
Definition within_30_days (now created : Z) : bool :=
  Z.leb (now - created) (30 * MS_PER_DAY).

(** What the update computes: less than 31 whole days have passed. *)
Definition under_31_days (now created : Z) : bool :=
  Z.ltb (now - created) (31 * MS_PER_DAY).

(** ** Queries the list operation must refuse *)

(** The number [x] is the integer [n]. *)
Definition number_is (x : number) (n : Z) : Prop :=
  match x with
  | Num q => (q == inject_Z n)%Q
  | NaN => False
  end.

(** A value is carried, and is none of the allowed strings. *)
Definition outside (values : list string) (v : jsval) : Prop :=
  v <> JUndefined /\ forall c, In c values -> v <> JString c.

(** A page is carried, and is not an integer of at least 1; a page size is
    carried, and is none of 12, 24, 36, 48. *)
Definition bad_page {rt : Runtime} (v : jsval) : Prop :=
  v <> JUndefined /\ forall n, 1 <= n -> ~ number_is (ToNumber v) n.

Definition bad_pageSize {rt : Runtime} (v : jsval) : Prop :=
  v <> JUndefined /\
  forall n, In n [12; 24; 36; 48] -> ~ number_is (ToNumber v) n.

(** What [add] throws on a full store. *)
Definition CAPACITY_FAULT : Error :=
  PlainError "Maximum products limit reached".

(** ** Stores reached through the service *)

(** The stores a process is in when only the service touches the store. *)
Inductive service_reachable {rt : Runtime} : ProductStore -> Prop :=
| service_new : service_reachable new_ProductStore
| service_call (c : ServiceCall) (s : ProductStore) :
    service_reachable s -> service_reachable (snd (run_service c s)).

(** The keys of the store's map, in insertion order. *)
Definition Map_keys (V : Type) (m : JsMap V) : list Z := map fst m.

(** The field constraints that [createSchema] and [updateSchema] share. *)
Definition within (n : nat) (text : option string) : bool :=
  match text with
  | Some t => (String.length t <=? n)%nat
  | None => true
  end.

Definition positive_or_null (cost : option Q) : bool :=
  match cost with
  | Some q => negb (Qle_bool q 0)
  | None => true
  end.

Definition valid_values {rt : Runtime} (name : string)
  (description : option string) (mainImage : string) (images : list string)
  (price : option Q) (category : string)
  (shortDescription dimensions : option string) : bool :=
  (1 <=? String.length name)%nat
  && (String.length name <=? PRODUCT_LIMITS.NAME_MAX_LENGTH)%nat
  && within PRODUCT_LIMITS.DESCRIPTION_MAX_LENGTH description
  && is_url mainImage
  && forallb is_url images
  && positive_or_null price
  && existsb (String.eqb category) categories
  && within PRODUCT_LIMITS.SHORT_DESCRIPTION_MAX_LENGTH shortDescription
  && within PRODUCT_LIMITS.DIMENSIONS_MAX_LENGTH dimensions.

Definition valid_fields {rt : Runtime} (p : ProductRecord) : bool :=
  valid_values (name p) (description p) (mainImage p) (images p) (price p)
    (category p) (shortDescription p) (dimensions p).

(** How a parsed field relates to the value the body carried. *)
Definition reads_text (v : jsval) (text : option string) : Prop :=
  match text with
  | Some t => v = JString t
  | None => v = JNull
  end.

Definition reads_price (v : jsval) (cost : option Q) : Prop :=
  match cost with
  | Some q => v = JNumber (Num q)
  | None => v = JNull
  end.

Definition reads_flag (default : bool) (v : jsval) (b : bool) : Prop :=
  v = JBool b \/ (v = JUndefined /\ b = default).

Definition reads_images (v : jsval) (urls : list string) : Prop :=
  v = JArray (map JString urls) \/ (v = JUndefined /\ urls = []).

(** The fields that a create and an update copy from the body. *)
Definition reads_fields (o : list (string * jsval)) (p : ProductRecord)
  : Prop :=
  prop o "name" = JString (name p) /\
  reads_text (prop o "description") (description p) /\
  prop o "mainImage" = JString (mainImage p) /\
  reads_price (prop o "price") (price p) /\
  prop o "category" = JString (category p) /\
  reads_text (prop o "shortDescription") (shortDescription p) /\
  reads_text (prop o "dimensions") (dimensions p).

(** The same two, on a parsed body. *)
Definition reads_input (o : list (string * jsval)) (input : ProductInput)
  : Prop :=
  prop o "name" = JString (in_name input) /\
  reads_text (prop o "description") (in_description input) /\
  prop o "mainImage" = JString (in_mainImage input) /\
  reads_price (prop o "price") (in_price input) /\
  prop o "category" = JString (in_category input) /\
  reads_text (prop o "shortDescription") (in_shortDescription input) /\
  reads_text (prop o "dimensions") (in_dimensions input).

Definition valid_input {rt : Runtime} (input : ProductInput) : bool :=
  valid_values (in_name input) (in_description input) (in_mainImage input)
    (in_images input) (in_price input) (in_category input)
    (in_shortDescription input) (in_dimensions input).

(** A record is filed under its own identifier, which the counter has
    handed out. *)
Definition filed {rt : Runtime} (s : ProductStore)
  (entry : Z * ProductRecord) : Prop :=
  id (snd entry) = fst entry /\
  1 <= fst entry <= currentId s /\
  valid_fields (snd entry) = true.

Definition store_invariant {rt : Runtime} (s : ProductStore) : Prop :=
  0 <= currentId s /\
  NoDup (Map_keys (records s)) /\
  Forall (filed s) (records s).

(** A number that is no integer of at least 1. *)
Definition not_an_id (x : number) : Prop :=
  forall n, 1 <= n -> ~ number_is x n.

(** A record matches the filters a list query carries. *)
Definition matches (o : list (string * jsval)) (p : ProductRecord) : Prop :=
  (forall c, prop o "category" = JString c -> category p = c) /\
  (forall a, prop o "available" = JString a ->
             available p = String.eqb a "true") /\
  (forall f, prop o "featured" = JString f ->
             featured p = String.eqb f "true").



(** ** Orders the listing is sorted by *)

(** By price: a lower [price_rank] first, and among priced records of one
    rank the prices in the order [le]. *)
Definition price_sorted (le : Q -> Q -> Prop) (a b : bool * option Q)
  : Prop :=
  (price_rank (fst a) (snd a) < price_rank (fst b) (snd b))%nat \/
  (price_rank (fst a) (snd a) = price_rank (fst b) (snd b) /\
   match snd a, snd b with
   | Some x, Some y => le x y
   | _, _ => True
   end).


(** ** The catalog state of the client: [catalogStore.ts]

    The store created by zustand's [create]: [set] merges the fields an
    action gives into the current state. *)

Module catalogStore.

(** ['grid' | 'list'] *)
Inductive ViewMode : Type :=
| grid
| list_.

Record ProductFilters : Type := {
  category : option string;
  available : option bool;
  featured : option bool
}.

Record CatalogState : Type := {
  filters : ProductFilters;
  sort : option string;
  page : Z;
  pageSize : Z;
  viewMode : ViewMode;
  scrollPosition : Q
}.

Definition initialState : CatalogState :=
  {| filters := {| category := None; available := None; featured := None |};
     sort := Some "newest";
     page := 1;
     pageSize := 12;
     viewMode := grid;
     scrollPosition := 0 |}.

Definition setFilters (newFilters : ProductFilters) (state : CatalogState)
  : CatalogState :=
  {| filters := newFilters;
     sort := sort state;
     page := 1;
     pageSize := pageSize state;
     viewMode := viewMode state;
     scrollPosition := scrollPosition state |}.

Definition setSort (newSort : option string) (state : CatalogState)
  : CatalogState :=
  {| filters := filters state;
     sort := newSort;
     page := 1;
     pageSize := pageSize state;
     viewMode := viewMode state;
     scrollPosition := scrollPosition state |}.

Definition setPage (newPage : Z) (state : CatalogState) : CatalogState :=
  {| filters := filters state;
     sort := sort state;
     page := newPage;
     pageSize := pageSize state;
     viewMode := viewMode state;
     scrollPosition := scrollPosition state |}.

Definition setPageSize (newPageSize : Z) (state : CatalogState)
  : CatalogState :=
  let firstItemIndex := (page state - 1) * pageSize state in
  let newPage := Math_floor_div firstItemIndex newPageSize + 1 in
  {| filters := filters state;
     sort := sort state;
     page := newPage;
     pageSize := newPageSize;
     viewMode := viewMode state;
     scrollPosition := scrollPosition state |}.

Definition setViewMode (newViewMode : ViewMode) (state : CatalogState)
  : CatalogState :=
  {| filters := filters state;
     sort := sort state;
     page := 1;
     pageSize := match newViewMode with
                 | grid => 12
                 | list_ => 8
                 end;
     viewMode := newViewMode;
     scrollPosition := scrollPosition state |}.

Definition setScrollPosition (position : Q) (state : CatalogState)
  : CatalogState :=
  {| filters := filters state;
     sort := sort state;
     page := page state;
     pageSize := pageSize state;
     viewMode := viewMode state;
     scrollPosition := position |}.

Definition clearFilters (state : CatalogState) : CatalogState :=
  {| filters := {| category := None; available := None; featured := None |};
     sort := sort state;
     page := 1;
     pageSize := pageSize state;
     viewMode := viewMode state;
     scrollPosition := scrollPosition state |}.

Definition resetPagination (state : CatalogState) : CatalogState :=
  {| filters := filters state;
     sort := sort state;
     page := 1;
     pageSize := pageSize state;
     viewMode := viewMode state;
     scrollPosition := scrollPosition state |}.

(** The actions of the store, as data. *)
Inductive Action : Type :=
| SetFilters (newFilters : ProductFilters)
| SetSort (newSort : option string)
| SetPage (newPage : Z)
| SetPageSize (newPageSize : Z)
| SetViewMode (newViewMode : ViewMode)
| SetScrollPosition (position : Q)
| ClearFilters
| ResetPagination.

Definition dispatch (state : CatalogState) (action : Action)
  : CatalogState :=
  match action with
  | SetFilters newFilters => setFilters newFilters state
  | SetSort newSort => setSort newSort state
  | SetPage newPage => setPage newPage state
  | SetPageSize newPageSize => setPageSize newPageSize state
  | SetViewMode newViewMode => setViewMode newViewMode state
  | SetScrollPosition position => setScrollPosition position state
  | ClearFilters => clearFilters state
  | ResetPagination => resetPagination state
  end.

(** An action whose argument is a page of at least 1, or a page size above
    0; the other actions take no number. *)
Definition in_range (action : Action) : Prop :=
  match action with
  | SetPage newPage => 1 <= newPage
  | SetPageSize newPageSize => 0 < newPageSize
  | _ => True
  end.

End catalogStore.

(** ** The pagination control: [CatalogPagination] *)

Definition PAGE_SIZE_OPTIONS : list Z := [12; 24; 36; 48].

Inductive PageEntry : Type :=
| PageNumber (n : Z)
| ellipsis.

(** [for (let i = start; i <= stop; i++) pages.push(i)] *)
Definition for_range (start stop : Z) : list Z :=
  map (fun i => start + Z.of_nat i) (seq 0 (Z.to_nat (stop - start + 1))).

Definition getPageNumbers (page totalPages : Z) : list PageEntry :=
  let maxVisible := 5 in
  if Z.leb totalPages maxVisible
  then map PageNumber (for_range 1 totalPages)
  else
    let start := Z.max 2 (page - 1) in
    let stop := Z.min (totalPages - 1) (page + 1) in
    ([PageNumber 1]
     ++ (if Z.gtb page 3 then [ellipsis] else [])
     ++ map PageNumber (for_range start stop)
     ++ (if Z.ltb page (totalPages - 2) then [ellipsis] else [])
     ++ [PageNumber totalPages])%list.

(** The numbers among the entries, in their order. *)
Fixpoint numbered (entries : list PageEntry) : list Z :=
  match entries with
  | [] => []
  | PageNumber n :: rest => n :: numbered rest
  | ellipsis :: rest => numbered rest
  end.

(** The range the control announces: "Mostrando [shownFrom] a [shownTo] de
    [total] produtos". *)
Definition shownFrom (meta : PaginationMeta) : Z :=
  (page meta - 1) * pageSize meta + 1.

Definition shownTo (meta : PaginationMeta) : Z :=
  Z.min (page meta * pageSize meta) (total meta).

(** * Properties *)

(** ** Arithmetic of the page count *)

Lemma Math_floor_div_Z (a b : Z) : Math_floor_div a b = a / b.
Proof. unfold Math_floor_div. symmetry. apply Zdiv_Qdiv. Qed.

Lemma Math_ceil_div_Z (a b : Z) : Math_ceil_div a b = - ((- a) / b).
Proof.
  unfold Math_ceil_div, Qceiling. f_equal.
  rewrite Zdiv_Qdiv. apply Qfloor_comp.
  rewrite inject_Z_opp. unfold Qdiv. ring.
Qed.

(** [Math.ceil(a / b)] is the least number of pages of [b] that hold [a]. *)
Lemma Math_ceil_div_spec (a b : Z) :
  0 < b ->
  (Math_ceil_div a b - 1) * b < a <= Math_ceil_div a b * b.
Proof.
  intros Hb. rewrite Math_ceil_div_Z.
  pose proof (Z.div_mod (- a) b ltac:(lia)) as Hdm.
  pose proof (Z.mod_pos_bound (- a) b Hb) as Hm.
  nia.
Qed.

Lemma Math_ceil_div_0 (b : Z) : Math_ceil_div 0 b = 0.
Proof.
  rewrite Math_ceil_div_Z. change (- 0) with 0. rewrite Zdiv_0_l. reflexivity.
Qed.

(** ** Sorting and slicing *)

Section ArrayFacts.
Variable A : Type.
Variable comparefn : A -> A -> Q.

Lemma insert_sorted_length (x : A) (l : list A) :
  List.length (insert_sorted comparefn x l) = S (List.length l).
Proof.
  induction l as [|y rest IH]; simpl; [reflexivity|].
  destruct (Qle_bool (comparefn x y) 0); simpl; congruence.
Qed.

Lemma Array_sort_length (l : list A) :
  List.length (Array_sort comparefn l) = List.length l.
Proof.
  induction l as [|x rest IH]; simpl; [reflexivity|].
  rewrite insert_sorted_length. congruence.
Qed.

Lemma insert_sorted_In (x z : A) (l : list A) :
  In z (insert_sorted comparefn x l) -> z = x \/ In z l.
Proof.
  induction l as [|y rest IH]; simpl.
  - intros [E|[]]; auto.
  - destruct (Qle_bool (comparefn x y) 0); simpl.
    + intros [E|[E|E]]; auto.
    + intros [E|E]; auto. destruct (IH E); auto.
Qed.

(** The sort leaves the ranks in ascending order when the comparator
    respects them, whatever it answers between elements of one rank. *)
Variable rank : A -> nat.

Hypothesis comparefn_respects : respects comparefn rank.

Lemma insert_sorted_by_rank (x : A) (l : list A) :
  StronglySorted (by_rank rank) l ->
  StronglySorted (by_rank rank) (insert_sorted comparefn x l).
Proof.
  induction 1 as [|y rest Hrest IH Hy]; simpl.
  - repeat constructor.
  - pose proof (comparefn_respects x y) as Hxy.
    destruct (Qle_bool (comparefn x y) 0).
    + constructor; [constructor; assumption|].
      constructor; [exact Hxy|].
      rewrite Forall_forall in *. intros z Hz.
      unfold by_rank in *. specialize (Hy z Hz). lia.
    + constructor; [exact IH|].
      rewrite Forall_forall in *. intros z Hz.
      destruct (insert_sorted_In _ _ _ Hz) as [->|Hin];
        [exact Hxy | exact (Hy z Hin)].
Qed.

Lemma Array_sort_by_rank (l : list A) :
  StronglySorted (by_rank rank) (Array_sort comparefn l).
Proof.
  induction l as [|x rest IH]; simpl.
  - constructor.
  - apply insert_sorted_by_rank, IH.
Qed.
End ArrayFacts.

Section SortedFacts.
Variables (A B : Type) (R : A -> A -> Prop).

Lemma StronglySorted_skipn (n : nat) (l : list A) :
  StronglySorted R l -> StronglySorted R (skipn n l).
Proof.
  revert l. induction n as [|n IH]; intros l Hl; simpl; [exact Hl|].
  destruct l as [|x rest]; [constructor|].
  apply IH. inversion Hl; assumption.
Qed.

Lemma In_firstn (n : nat) (l : list A) (z : A) :
  In z (firstn n l) -> In z l.
Proof.
  revert l. induction n as [|n IH]; intros [|x rest]; simpl; try tauto.
  intros [E|Hz]; [left; exact E | right; apply IH, Hz].
Qed.

Lemma StronglySorted_firstn (n : nat) (l : list A) :
  StronglySorted R l -> StronglySorted R (firstn n l).
Proof.
  revert l. induction n as [|n IH]; intros l Hl; simpl; [constructor|].
  destruct l as [|x rest]; [constructor|].
  inversion Hl as [|? ? Hrest Hx]; subst.
  constructor; [apply IH, Hrest|].
  rewrite Forall_forall in *. intros z Hz.
  apply Hx. eapply In_firstn. exact Hz.
Qed.

Lemma StronglySorted_slice (l : list A) (start stop : Z) :
  StronglySorted R l -> StronglySorted R (Array_slice l start stop).
Proof.
  intros Hl. unfold Array_slice.
  apply StronglySorted_firstn, StronglySorted_skipn, Hl.
Qed.

Lemma StronglySorted_map (R' : B -> B -> Prop) (f : A -> B) (l : list A) :
  (forall a b, R a b -> R' (f a) (f b)) ->
  StronglySorted R l -> StronglySorted R' (map f l).
Proof.
  intros Hf. induction 1 as [|x rest Hrest IH Hx]; simpl; constructor.
  - exact IH.
  - rewrite Forall_forall in *. intros z Hz.
    apply in_map_iff in Hz. destruct Hz as (a & <- & Ha).
    apply Hf, Hx, Ha.
Qed.

Lemma StronglySorted_nth (l : list A) (i j : nat) (x y : A) :
  StronglySorted R l ->
  (i < j)%nat -> nth_error l i = Some x -> nth_error l j = Some y ->
  R x y.
Proof.
  intros Hl. revert i j.
  induction Hl as [|z rest Hrest IH Hz]; intros i j Hij Hi Hj.
  - destruct i; discriminate.
  - destruct j as [|j]; [lia|]. simpl in Hj.
    destruct i as [|i]; simpl in Hi.
    + injection Hi as <-. rewrite Forall_forall in Hz.
      apply Hz. eapply nth_error_In. exact Hj.
    + apply (IH i j); [lia | assumption | assumption].
Qed.
End SortedFacts.

Lemma Array_slice_length (A : Type) (l : list A) (start stop : Z) :
  0 <= start <= stop ->
  Z.of_nat (List.length (Array_slice l start stop)) =
  Z.min (stop - start) (Z.max 0 (Z.of_nat (List.length l) - start)).
Proof.
  intros Hr. unfold Array_slice.
  destruct (Z.ltb_spec start 0); [lia|].
  destruct (Z.ltb_spec stop 0); [lia|].
  rewrite length_firstn, length_skipn. lia.
Qed.

(** ** What the list schema guarantees *)

Section SchemaFacts.
Context {rt : Runtime}.

Lemma int_positive_floor (q : Q) :
  z_int q = true -> z_positive q = true -> 1 <= Qfloor q.
Proof.
  unfold z_int, isInteger, z_positive. intros Hint Hpos.
  apply Qeq_bool_iff in Hint.
  apply negb_true_iff in Hpos.
  assert (Hlt : (0 < inject_Z (Qfloor q))%Q).
  { rewrite <- Hint. apply Qnot_le_lt. intros Hle.
    apply Qle_bool_iff in Hle. congruence. }
  change 0%Q with (inject_Z 0) in Hlt. rewrite <- Zlt_Qlt in Hlt. lia.
Qed.

Lemma coerced_page (v : jsval) (p : Z) :
  z_transform (z_refine (z_refine z_coerce_number z_int) z_positive) Qfloor v
    = Some p ->
  1 <= p.
Proof.
  unfold z_transform, z_refine.
  destruct (z_coerce_number v) as [q|]; [|discriminate].
  destruct (z_int q) eqn:Hint; [|discriminate].
  destruct (z_positive q) eqn:Hpos; [|discriminate].
  simpl. intros [= <-]. apply int_positive_floor; assumption.
Qed.

Lemma pageSchema_bound (v : jsval) (p : Z) :
  pageSchema v = Some p -> 1 <= p.
Proof.
  unfold pageSchema, z_optional_default.
  destruct v; try apply coerced_page. intros [= <-]. lia.
Qed.

Lemma coerced_pageSize (v : jsval) (p : Z) :
  z_refine (z_transform (z_refine z_coerce_number z_int) Qfloor)
    (fun val => existsb (Z.eqb val) pageSizes) v = Some p ->
  In p pageSizes.
Proof.
  unfold z_refine at 1.
  destruct (z_transform _ _ v) as [n|]; [|discriminate].
  destruct (existsb (Z.eqb n) pageSizes) eqn:Hex; [|discriminate].
  intros [= <-]. apply existsb_exists in Hex.
  destruct Hex as (m & Hm & E). apply Z.eqb_eq in E. subst. exact Hm.
Qed.

Lemma pageSizeSchema_bound (v : jsval) (p : Z) :
  pageSizeSchema v = Some p -> In p pageSizes.
Proof.
  unfold pageSizeSchema, z_optional_default.
  destruct v; try apply coerced_pageSize.
  intros [= <-]. simpl. auto.
Qed.

(** The shape of a successful parse of the list query. *)
Lemma listQuerySchema_inv (query : jsval) (filters : ListQueryInput) :
  listQuerySchema query = Some filters ->
  exists o,
    query = JObject o /\
    z_optional (z_enum categories) (prop o "category")
      = Some (f_category filters) /\
    z_optional (z_enum sortOrders) (prop o "sort") = Some (f_sort filters) /\
    pageSchema (prop o "page") = Some (f_page filters) /\
    pageSizeSchema (prop o "pageSize") = Some (f_pageSize filters).
Proof.
  destruct query as [| | | | | |o]; try discriminate.
  unfold listQuerySchema, and_then.
  destruct (z_optional (z_enum categories) _) as [c|] eqn:Ec; [|discriminate].
  destruct (z_optional (z_enum sortOrders) _) as [so|] eqn:Eso; [|discriminate].
  destruct (pageSchema _) as [p|] eqn:Ep; [|discriminate].
  destruct (pageSizeSchema _) as [ps|] eqn:Eps; [|discriminate].
  destruct (z_optional _ (prop o "available")) as [a|]; [|discriminate].
  destruct (z_optional _ (prop o "featured")) as [f|]; [|discriminate].
  intros [= <-]. exists o. simpl. repeat split; reflexivity || assumption.
Qed.

Lemma listQuerySchema_bounds (query : jsval) (filters : ListQueryInput) :
  listQuerySchema query = Some filters ->
  1 <= f_page filters /\ In (f_pageSize filters) pageSizes.
Proof.
  intros Hq. apply listQuerySchema_inv in Hq.
  destruct Hq as (o & _ & _ & _ & Hp & Hps).
  split; [eapply pageSchema_bound | eapply pageSizeSchema_bound]; eassumption.
Qed.

Lemma or_number_nonzero (a b : Z) : a <> 0 -> or_number a b = a.
Proof.
  intros Ha. unfold or_number, truthy_number.
  destruct (Z.eqb_spec a 0); [contradiction | reflexivity].
Qed.

Lemma pageSizes_pos (n : Z) : In n pageSizes -> 0 < n.
Proof. unfold pageSizes. simpl. intuition lia. Qed.

(** [productList] on a query that parses. *)
Lemma productList_parsed (query : jsval) (filters : ListQueryInput)
  (s : ProductStore) :
  listQuerySchema query = Some filters ->
  let products :=
    Array_sort (compareProducts (or_string (f_sort filters) "newest"))
      (apply_filters filters (Map_values (records s))) in
  let offset := (f_page filters - 1) * f_pageSize filters in
  productList query s =
  (Returned
     {| items :=
          map toListItem
            (Array_slice products offset (offset + f_pageSize filters));
        pagination :=
          {| page := f_page filters;
             pageSize := f_pageSize filters;
             total := Z.of_nat (List.length products);
             totalPages :=
               Math_ceil_div (Z.of_nat (List.length products))
                 (f_pageSize filters);
             hasNext :=
               Z.ltb (f_page filters)
                 (Math_ceil_div (Z.of_nat (List.length products))
                    (f_pageSize filters));
             hasPrevious := Z.gtb (f_page filters) 1 |} |}, s).
Proof.
  intros Hq. pose proof (listQuerySchema_bounds _ Hq) as [Hp Hps].
  apply pageSizes_pos in Hps.
  unfold productList. rewrite Hq.
  unfold bind, productStore.getAll, ret.
  rewrite !or_number_nonzero by lia. reflexivity.
Qed.
End SchemaFacts.

(** ** The list pipeline *)

Section ListFacts.
Context {rt : Runtime}.

Lemma productList_returns (query : jsval) (s s' : ProductStore)
  (response : ProductListResponse) :
  productList query s = (Returned response, s') ->
  exists filters, listQuerySchema query = Some filters.
Proof.
  unfold productList.
  destruct (listQuerySchema query) as [filters|]; [eauto | discriminate].
Qed.

Lemma compareProducts_featured (sortOrder : string) :
  respects (compareProducts sortOrder) (fun p => featured_rank (featured p)).
Proof.
  intros a b. unfold compareProducts, featured_rank.
  destruct (featured a), (featured b); simpl;
    try (destruct (Qle_bool _ 0); lia); cbv; lia.
Qed.


(** The items of a page, sorted by any rank the comparator respects. *)
Lemma productList_by_rank (rank : ProductRecord -> nat)
  (rank' : ProductListItem -> nat) (query : jsval) (s s' : ProductStore)
  (filters : ListQueryInput) (response : ProductListResponse) :
  listQuerySchema query = Some filters ->
  respects (compareProducts (or_string (f_sort filters) "newest")) rank ->
  (forall p, rank' (toListItem p) = rank p) ->
  productList query s = (Returned response, s') ->
  StronglySorted (by_rank rank') (items response).
Proof.
  intros Hq Hresp Hrank Hrun.
  rewrite (productList_parsed _ s Hq) in Hrun.
  injection Hrun as <- _. simpl.
  apply StronglySorted_map with (R := by_rank rank).
  - intros a b. unfold by_rank. rewrite !Hrank. trivial.
  - apply StronglySorted_slice, Array_sort_by_rank, Hresp.
Qed.
End ListFacts.

(** C1.  A list query that passes validation returns a page: the number of
    items is [min(pageSize, max(0, total - (page-1)*pageSize))], where
    [total] counts the records left by the filters; [totalPages] is the
    ceiling of [total / pageSize], 0 for an empty result; a page past the
    end is empty and is not an error; and the pagination block is
    [{page, pageSize, total, totalPages, hasNext: page < totalPages,
    hasPrevious: page > 1}]. *)
Theorem list_pagination {rt : Runtime} (s : ProductStore) (query : jsval)
  (filters : ListQueryInput) :
  listQuerySchema query = Some filters ->
  let n :=
    Z.of_nat (List.length (apply_filters filters (Map_values (records s)))) in
  let pg := f_page filters in
  let ps := f_pageSize filters in
  exists response,
    productList query s = (Returned response, s) /\
    Z.of_nat (List.length (items response))
      = Z.min ps (Z.max 0 (n - (pg - 1) * ps)) /\
    (let pages := totalPages (pagination response) in
     (pages - 1) * ps < n <= pages * ps /\
     (n = 0 -> pages = 0) /\
     pagination response =
       {| page := pg; pageSize := ps; total := n; totalPages := pages;
          hasNext := Z.ltb pg pages; hasPrevious := Z.ltb 1 pg |}) /\
    ((pg - 1) * ps >= n -> items response = []).
Proof.
  intros Hq n pg ps.
  pose proof (listQuerySchema_bounds _ Hq) as [Hpg Hps].
  apply pageSizes_pos in Hps. fold pg in Hpg. fold ps in Hps.
  eexists. split; [apply productList_parsed, Hq|]. simpl.
  rewrite Array_sort_length. fold n pg ps.
  assert (Hlen : Z.of_nat
            (List.length
               (map toListItem
                  (Array_slice
                     (Array_sort
                        (compareProducts
                           (or_string (f_sort filters) "newest"))
                        (apply_filters filters (Map_values (records s))))
                     ((pg - 1) * ps) ((pg - 1) * ps + ps))))
          = Z.min ps (Z.max 0 (n - (pg - 1) * ps))).
  { rewrite length_map, Array_slice_length by nia.
    rewrite Array_sort_length. fold n. f_equal. lia. }
  split; [exact Hlen|]. split.
  - split; [apply Math_ceil_div_spec, Hps|]. split.
    + intros ->. apply Math_ceil_div_0.
    + rewrite Z.gtb_ltb. reflexivity.
  - intros Hpast.
    apply length_zero_iff_nil. apply Nat2Z.inj. rewrite Hlen. simpl. lia.
Qed.

(** The second page of 24 over a store of two records. *)
Lemma list_pagination_witness :
  exists response,
    productList (rt := example_runtime)
      (JObject [("page", JString "2"); ("pageSize", JString "24")])
      two_products = (Returned response, two_products) /\
    Z.of_nat (List.length (items response)) = Z.min 24 (Z.max 0 (2 - 1 * 24)) /\
    (let pages := totalPages (pagination response) in
     (pages - 1) * 24 < 2 <= pages * 24 /\
     (2 = 0 -> pages = 0) /\
     pagination response =
       {| page := 2; pageSize := 24; total := 2; totalPages := pages;
          hasNext := Z.ltb 2 pages; hasPrevious := Z.ltb 1 2 |}) /\
    (1 * 24 >= 2 -> items response = []).
Proof.
  apply (@list_pagination example_runtime two_products
           (JObject [("page", JString "2"); ("pageSize", JString "24")])
           {| f_category := None; f_sort := None; f_page := 2;
              f_pageSize := 24; f_available := None; f_featured := None |}).
  vm_compute. reflexivity.
Defined.

(** C2.  In the items of a returned page every featured record stands
    before every record that is not featured, whatever [sort] was asked. *)
Theorem list_featured_first {rt : Runtime} (s s' : ProductStore) (query : jsval)
  (response : ProductListResponse) :
  productList query s = (Returned response, s') ->
  featured_first (items response).
Proof.
  intros Hrun. destruct (productList_returns _ _ Hrun) as [filters Hq].
  pose proof (@productList_by_rank rt
                (fun p => featured_rank (featured p))
                (fun it => featured_rank (item_featured it))
                query s s' filters response
                Hq (compareProducts_featured _)
                (fun p => eq_refl) Hrun) as Hsorted.
  intros i j x y Hi Hj Hx Hy.
  destruct (Nat.lt_trichotomy i j) as [Hlt | [-> | Hgt]]; [exact Hlt | |].
  - congruence.
  - pose proof (StronglySorted_nth Hsorted Hgt Hj Hi) as Hr.
    unfold by_rank in Hr. rewrite Hx, Hy in Hr. simpl in Hr. lia.
Qed.

Lemma list_featured_first_witness :
  featured_first
    [ toListItem (example_record 1 true None 1000);
      toListItem (example_record 2 false (Some 100%Q) 2000) ].
Proof.
  apply (@list_featured_first example_runtime two_products two_products
           (sort_query "price-asc")
           {| items :=
                [ toListItem (example_record 1 true None 1000);
                  toListItem (example_record 2 false (Some 100%Q) 2000) ];
              pagination :=
                {| page := 1; pageSize := 12; total := 2; totalPages := 1;
                   hasNext := false; hasPrevious := false |} |}).
  vm_compute. reflexivity.
Defined.




(** C10.  The list operation leaves the store as it found it, records and
    identifier counter alike, whether it returns or throws. *)
Theorem list_leaves_store {rt : Runtime} (query : jsval) (s : ProductStore) :
  snd (productList query s) = s.
Proof.
  unfold productList.
  destruct (listQuerySchema query) as [filters|]; reflexivity.
Qed.

(** ** The map of the store *)

Section MapFacts.
Variable V : Type.

Lemma Map_get_set_same (m : JsMap V) (k : Z) (v : V) :
  Map_get (Map_set m k v) k = Some v.
Proof.
  induction m as [|[k' v'] rest IH]; simpl.
  - rewrite Z.eqb_refl. reflexivity.
  - destruct (Z.eqb_spec k' k) as [E|E]; simpl.
    + rewrite Z.eqb_refl. reflexivity.
    + destruct (Z.eqb_spec k' k); [contradiction | exact IH].
Qed.
End MapFacts.

(** ** Create, get, update and delete, step by step *)

Section CrudFacts.
Context {rt : Runtime}.

Lemma paramsSchema_id_params (k : Z) :
  1 <= k -> paramsSchema (id_params k) = Some k.
Proof.
  intros Hk.
  assert (Hint : z_int (inject_Z k) = true).
  { unfold z_int, isInteger. rewrite Qfloor_Z.
    apply Qeq_bool_iff. reflexivity. }
  assert (Hpos : z_positive (inject_Z k) = true).
  { unfold z_positive. apply negb_true_iff.
    destruct (Qle_bool (inject_Z k) 0) eqn:E; [|reflexivity].
    apply Qle_bool_iff in E. change 0%Q with (inject_Z 0) in E.
    rewrite <- Zle_Qle in E. lia. }
  unfold paramsSchema, id_params. cbn [prop]. rewrite String.eqb_refl.
  unfold z_refine, z_coerce_number, z_number, ToNumber.
  rewrite Hint, Hpos. unfold and_then. rewrite Qfloor_Z. reflexivity.
Qed.

(** A create that returns: what it stored and what it did to the store. *)
Lemma productCreate_returns (body : jsval) (now : Z) (s s' : ProductStore)
  (created : ProductEntity) :
  productCreate body now s = (Returned created, s') ->
  id created = currentId s + 1 /\
  isNew created = true /\
  dateCreated created = now /\
  s' = {| records := Map_set (records s) (id created) created;
          currentId := currentId s + 1 |}.
Proof.
  unfold productCreate.
  destruct (createSchema body) as [params|]; [|discriminate].
  unfold bind, productStore.getNextId, productStore.add, ret. simpl.
  destruct (Z.geb _ _); [discriminate|].
  intros [= <- <-]. simpl. auto.
Qed.

(** An update that returns: the record it read and the one it wrote. *)
Lemma productUpdate_returns (params body : jsval) (now : Z)
  (s s' : ProductStore) (result : option ProductEntity) :
  productUpdate params body now s = (Returned result, s') ->
  exists k updateData existing updated,
    paramsSchema params = Some k /\
    updateSchema body = Some updateData /\
    Map_get (records s) k = Some existing /\
    result = Some updated /\
    isNew updated = Z.leb ((now - dateCreated existing) / MS_PER_DAY) 30 /\
    images updated = in_images updateData /\
    dateCreated updated = dateCreated existing /\
    dateModified updated = now /\
    id updated = id existing /\
    s' = {| records := Map_set (records s) k updated;
            currentId := currentId s |}.
Proof.
  unfold productUpdate.
  destruct (paramsSchema params) as [k|]; [|discriminate].
  destruct (updateSchema body) as [updateData|]; [|discriminate].
  unfold bind, productStore.getById, productStore.update, ret.
  destruct (Map_get (records s) k) as [existing|] eqn:Hget; [|discriminate].
  rewrite Hget. intros [= <- <-].
  exists k, updateData, existing. eexists.
  simpl. rewrite Math_floor_div_Z. repeat split; reflexivity || exact Hget.
Qed.

Lemma whole_days_le_30 (elapsed : Z) :
  Z.leb (elapsed / MS_PER_DAY) 30 = Z.ltb elapsed (31 * MS_PER_DAY).
Proof.
  change MS_PER_DAY with 86400000.
  destruct (Z.leb_spec (elapsed / 86400000) 30);
    destruct (Z.ltb_spec elapsed (31 * 86400000)); try reflexivity;
    Z.div_mod_to_equations; lia.
Qed.

(** An update whose body has no [images] key stores an empty list: the
    schema's default [[]] is truthy, so the fallback never applies. *)
Lemma updateSchema_without_images (o : list (string * jsval))
  (updateData : UpdateInput) :
  prop o "images" = JUndefined ->
  updateSchema (JObject o) = Some updateData ->
  in_images updateData = [].
Proof.
  intros Himg. unfold updateSchema, and_then. rewrite Himg. simpl.
  repeat match goal with
         | |- match ?x with _ => _ end = _ -> _ =>
             destruct x; [|discriminate]
         end.
  intros [= <-]. reflexivity.
Qed.
End CrudFacts.

(** C4, as the specification words it, fails: a record updated 30 days and
    one millisecond after its creation is still new, although more than 30
    days have passed. *)
Lemma update_isNew_counterexample :
  exists updated s',
    productUpdate (rt := example_runtime) (id_params 1) example_body
      (30 * MS_PER_DAY + 1) one_product = (Returned (Some updated), s') /\
    isNew updated <> within_30_days (30 * MS_PER_DAY + 1) 0.
Proof.
  eexists. eexists. split; [vm_compute; reflexivity|].
  vm_compute. discriminate.
Qed.

(** C4, amended.  A created product has [isNew = true].  A successful
    update recomputes [isNew] from the stored record's [dateCreated],
    whatever the body holds: it is true exactly when the whole days elapsed,
    [floor((now - dateCreated) / one day)], are at most 30, that is when
    less than 31 days have passed; so a record created 31 or more days
    before the update is no longer new. *)
Theorem isNew_computed {rt : Runtime} (s1 s1' s2 s2' : ProductStore)
  (body1 params body2 : jsval) (now1 now2 : Z)
  (created updated : ProductEntity) :
  productCreate body1 now1 s1 = (Returned created, s1') ->
  productUpdate params body2 now2 s2 = (Returned (Some updated), s2') ->
  isNew created = true /\
  exists k existing,
    paramsSchema params = Some k /\
    Map_get (records s2) k = Some existing /\
    Map_get (records s2') k = Some updated /\
    isNew updated = under_31_days now2 (dateCreated existing) /\
    (31 * MS_PER_DAY <= now2 - dateCreated existing -> isNew updated = false).
Proof.
  intros Hcreate Hupdate.
  split; [apply (productCreate_returns _ _ _ Hcreate)|].
  destruct (productUpdate_returns _ _ _ _ Hupdate)
    as (k & updateData & existing & u & Hk & _ & Hget & [= <-] & Hnew
        & _ & _ & _ & _ & ->).
  exists k, existing. rewrite whole_days_le_30 in Hnew.
  repeat split; try assumption.
  - simpl. apply Map_get_set_same.
  - intros Hold. rewrite Hnew. apply Z.ltb_ge. exact Hold.
Qed.

(** A first create on an empty store, and an update of a thirty-one days
    old record. *)
Lemma isNew_computed_witness :
  isNew (example_created 1 7) = true /\
  exists k existing,
    paramsSchema (rt := example_runtime) (id_params 1) = Some k /\
    Map_get (records one_product) k = Some existing /\
    Map_get
      (records
         (snd (productUpdate (rt := example_runtime) (id_params 1)
                 example_body (31 * MS_PER_DAY) one_product))) k
      = Some (example_updated 1 false 0 (31 * MS_PER_DAY)) /\
    isNew (example_updated 1 false 0 (31 * MS_PER_DAY))
      = under_31_days (31 * MS_PER_DAY) (dateCreated existing) /\
    (31 * MS_PER_DAY <= 31 * MS_PER_DAY - dateCreated existing ->
     isNew (example_updated 1 false 0 (31 * MS_PER_DAY)) = false).
Proof.
  apply (@isNew_computed example_runtime
           new_ProductStore
           (snd (productCreate (rt := example_runtime) example_body 7
                   new_ProductStore))
           one_product
           (snd (productUpdate (rt := example_runtime) (id_params 1)
                   example_body (31 * MS_PER_DAY) one_product))
           example_body (id_params 1) example_body 7 (31 * MS_PER_DAY)
           (example_created 1 7)
           (example_updated 1 false 0 (31 * MS_PER_DAY))).
  - vm_compute. reflexivity.
  - vm_compute. reflexivity.
Defined.

(** Whatever the stored images were, an update whose body has no [images]
    key leaves the record with none. *)
Lemma update_without_images_empties {rt : Runtime} (params : jsval)
  (o : list (string * jsval)) (now : Z) (s s' : ProductStore)
  (updated : ProductEntity) :
  prop o "images" = JUndefined ->
  productUpdate params (JObject o) now s = (Returned (Some updated), s') ->
  images updated = [].
Proof.
  intros Himg Hupdate.
  destruct (productUpdate_returns _ _ _ _ Hupdate)
    as (k & updateData & existing & u & _ & Hbody & _ & [= <-] & _
        & Himages & _).
  rewrite Himages. eapply updateSchema_without_images; eassumption.
Qed.

(** C5 fails on the code.  The stored record has one image; the update body
    has no [images] key; the updated record, returned and stored, has no
    image left. *)
Theorem update_without_images_clears :
  prop example_props "images" = JUndefined /\
  Map_get (records one_product) 1
    = Some (example_record 1 false (Some 100%Q) 0) /\
  images (example_record 1 false (Some 100%Q) 0)
    = ["https://example.com/sofa-2.jpg"] /\
  exists updated s',
    productUpdate (rt := example_runtime) (id_params 1) example_body 5
      one_product = (Returned (Some updated), s') /\
    Map_get (records s') 1 = Some updated /\
    images updated = [].
Proof.
  repeat split. eexists. eexists.
  split; [vm_compute; reflexivity|]. split; reflexivity.
Qed.

(** ** The identifier counter *)

Lemma run_call_counter (c : StoreCall) (s : ProductStore) :
  is_clear c = false ->
  currentId s <= currentId (snd (run_call c s)) /\
  forall k, fst (run_call c s) = Some k ->
            k = currentId (snd (run_call c s)) /\ currentId s < k.
Proof.
  intros Hc. destruct c; try discriminate; simpl;
    try (split; [lia | discriminate]).
  - split; [lia|]. intros k [= <-]. lia.
  - unfold productStore.add. destruct (Z.geb _ _); simpl;
      (split; [lia | discriminate]).
  - unfold productStore.update. destruct (Map_get _ _); simpl;
      (split; [lia | discriminate]).
Qed.

Lemma allocated_increasing (calls : list StoreCall) (s : ProductStore) :
  forallb (fun c => negb (is_clear c)) calls = true ->
  Forall (fun k => currentId s < k) (allocated calls s) /\
  StronglySorted Z.lt (allocated calls s).
Proof.
  revert s. induction calls as [|c rest IH]; intros s Hcalls; simpl.
  - split; constructor.
  - simpl in Hcalls. apply andb_true_iff in Hcalls.
    destruct Hcalls as [Hc Hrest]. apply negb_true_iff in Hc.
    destruct (run_call_counter c s Hc) as [Hmono Hfresh].
    destruct (run_call c s) as [[k|] s1]; simpl in *.
    + destruct (Hfresh k eq_refl) as [-> Hlt].
      destruct (IH s1 Hrest) as [Habove Hsorted].
      split; constructor; try assumption.
      eapply Forall_impl; [|exact Habove]. simpl. intros; lia.
    + destruct (IH s1 Hrest) as [Habove Hsorted].
      split; [|exact Hsorted].
      eapply Forall_impl; [|exact Habove]. simpl. intros; lia.
Qed.

Lemma reachable_counter (s : ProductStore) : reachable s -> 0 <= currentId s.
Proof.
  induction 1 as [|c s Hs IH]; [simpl; lia|].
  destruct c; simpl; try exact IH; try lia.
  - unfold productStore.add. destruct (Z.geb _ _); exact IH.
  - unfold productStore.update. destruct (Map_get _ _); exact IH.
Qed.

Lemma productDelete_counter {rt : Runtime} (params : jsval)
  (s : ProductStore) :
  currentId (snd (productDelete params s)) = currentId s.
Proof.
  unfold productDelete. destruct (paramsSchema params) as [k|]; [|reflexivity].
  unfold bind, productStore.exists_, productStore.delete. simpl.
  destruct (Map_has (records s) k); reflexivity.
Qed.

(** C6.  Along any sequence of calls on the store that does not clear it,
    the identifiers handed out by [getNextId] are strictly increasing, so
    none is handed out twice; in particular a create, the deletion of the
    created record and a second create give the second record the larger
    identifier. *)
Theorem identifiers_increase :
  (forall (s : ProductStore) (calls : list StoreCall),
     forallb (fun c => negb (is_clear c)) calls = true ->
     StronglySorted Z.lt (allocated calls s)) /\
  (forall (rt : Runtime) (s s1 s2 s3 : ProductStore) (body1 body2 : jsval)
          (now1 now2 : Z) (first second : ProductEntity) (message : string),
     productCreate body1 now1 s = (Returned first, s1) ->
     productDelete (id_params (id first)) s1 = (Returned message, s2) ->
     productCreate body2 now2 s2 = (Returned second, s3) ->
     id first < id second).
Proof.
  split.
  - intros s calls Hcalls. apply (allocated_increasing calls s Hcalls).
  - intros rt s s1 s2 s3 body1 body2 now1 now2 first second message
           Hfirst Hdelete Hsecond.
    destruct (productCreate_returns _ _ _ Hfirst) as (Hid1 & _ & _ & Hs1).
    destruct (productCreate_returns _ _ _ Hsecond) as (Hid2 & _).
    pose proof (productDelete_counter (id_params (id first)) s1) as Hc.
    rewrite Hdelete in Hc. simpl in Hc.
    rewrite Hid2, Hc, Hs1. simpl. lia.
Qed.

(** Two allocations around a deletion, and create, delete, create on an
    empty store. *)
Lemma identifiers_increase_witness :
  StronglySorted Z.lt
    (allocated [CallGetNextId; CallDelete 1; CallGetNextId] new_ProductStore)
  /\ id (example_created 1 7) < id (example_created 2 9).
Proof.
  split.
  - apply (proj1 identifiers_increase). reflexivity.
  - apply (proj2 identifiers_increase example_runtime
             new_ProductStore
             (snd (productCreate (rt := example_runtime) example_body 7
                     new_ProductStore))
             {| records := []; currentId := 1 |}
             (snd (productCreate (rt := example_runtime) example_body 9
                     {| records := []; currentId := 1 |}))
             example_body example_body 7 9
             (example_created 1 7) (example_created 2 9)
             "Product deleted successfully").
    + vm_compute. reflexivity.
    + vm_compute. reflexivity.
    + vm_compute. reflexivity.
Defined.

(** The service only acts on the store through its methods: a service call
    takes a store the process can be in to another one. *)
Lemma run_service_reachable {rt : Runtime} (c : ServiceCall)
  (s : ProductStore) :
  reachable s -> reachable (snd (run_service c s)).
Proof.
  intros Hs.
  destruct c as [query | params | body now | params body now | params]; simpl.
  - unfold productList.
    destruct (listQuerySchema query); simpl; exact Hs.
  - unfold productGet. destruct (paramsSchema params) as [k|]; [|exact Hs].
    unfold bind, productStore.getById.
    destruct (Map_get (records s) k); exact Hs.
  - unfold productCreate.
    destruct (createSchema body) as [input|]; [|exact Hs].
    unfold bind, productStore.getNextId.
    match goal with
    | |- context [productStore.add ?p ?s1] =>
        pose proof (reachable_call (CallAdd p)
                      (reachable_call CallGetNextId Hs)) as Hadd;
        change (reachable (snd (productStore.add p s1))) in Hadd;
        destruct (productStore.add p s1) as [[r|e] s2]
    end; exact Hadd.
  - unfold productUpdate. destruct (paramsSchema params) as [k|]; [|exact Hs].
    destruct (updateSchema body) as [updateData|]; [|exact Hs].
    unfold bind, productStore.getById.
    destruct (Map_get (records s) k) as [existing|] eqn:Hget; [|exact Hs].
    match goal with
    | |- context [productStore.update k ?d s] =>
        pose proof (reachable_call (CallUpdate k d) Hs) as Hupd;
        change (reachable (snd (productStore.update k d s))) in Hupd;
        destruct (productStore.update k d s) as [[r|e] s2]
    end; exact Hupd.
  - unfold productDelete. destruct (paramsSchema params) as [k|]; [|exact Hs].
    unfold bind, productStore.exists_.
    destruct (negb (Map_has (records s) k)); [exact Hs|].
    pose proof (reachable_call (CallDelete k) Hs) as Hdel. exact Hdel.
Qed.

(** C9.  On a store the process can be in, a create that returns a record
    followed by a get of that record's identifier returns the same record,
    every field of it. *)
Theorem create_then_get {rt : Runtime} (s s' : ProductStore) (body : jsval)
  (now : Z) (created : ProductEntity) :
  reachable s ->
  productCreate body now s = (Returned created, s') ->
  productGet (id_params (id created)) s' = (Returned created, s').
Proof.
  intros Hs Hcreate. apply reachable_counter in Hs.
  destruct (productCreate_returns _ _ _ Hcreate) as (Hid & _ & _ & ->).
  unfold productGet. rewrite paramsSchema_id_params by lia.
  unfold bind, productStore.getById. simpl.
  rewrite Map_get_set_same. reflexivity.
Qed.

Lemma create_then_get_witness :
  productGet (rt := example_runtime) (id_params (id (example_created 2 7)))
    {| records := [ (1, example_record 1 false (Some 100%Q) 0);
                    (2, example_created 2 7) ];
       currentId := 2 |}
  = (Returned (example_created 2 7),
     {| records := [ (1, example_record 1 false (Some 100%Q) 0);
                     (2, example_created 2 7) ];
        currentId := 2 |}).
Proof.
  apply (@create_then_get example_runtime one_product _ example_body 7).
  - apply (reachable_call
             (CallAdd (example_record 1 false (Some 100%Q) 0))
             (reachable_call CallGetNextId reachable_new)).
  - vm_compute. reflexivity.
Defined.

(** ** Failing calls *)

Section FailureFacts.
Context {rt : Runtime}.

Lemma productList_fails (query : jsval) (s s' : ProductStore) (e : Error) :
  productList query s = (Thrown e, s') -> e = VALIDATION_ERROR /\ s' = s.
Proof.
  unfold productList.
  destruct (listQuerySchema query); [discriminate|].
  intros [= <- <-]. auto.
Qed.

Lemma productGet_fails (params : jsval) (s s' : ProductStore) (e : Error) :
  productGet params s = (Thrown e, s') ->
  (e = VALIDATION_ERROR \/ e = NOT_FOUND) /\ s' = s.
Proof.
  unfold productGet. destruct (paramsSchema params) as [k|].
  - unfold bind, productStore.getById.
    destruct (Map_get (records s) k); [discriminate|].
    intros [= <- <-]. auto.
  - intros [= <- <-]. auto.
Qed.

Lemma productCreate_fails (body : jsval) (now : Z) (s s' : ProductStore)
  (e : Error) :
  productCreate body now s = (Thrown e, s') ->
  (e = VALIDATION_ERROR /\ s' = s) \/
  (e = CAPACITY_FAULT /\
   PRODUCT_DEFAULTS.MAX_RECORDS <= Map_size (records s) /\
   s' = {| records := records s; currentId := currentId s + 1 |}).
Proof.
  unfold productCreate. destruct (createSchema body) as [params|].
  - unfold bind, productStore.getNextId, productStore.add, ret. simpl.
    destruct (Z.geb_spec (Map_size (records s)) PRODUCT_DEFAULTS.MAX_RECORDS);
      [|discriminate].
    intros [= <- <-]. right. repeat split. lia.
  - intros [= <- <-]. auto.
Qed.

Lemma productUpdate_fails (params body : jsval) (now : Z)
  (s s' : ProductStore) (e : Error) :
  productUpdate params body now s = (Thrown e, s') ->
  (e = VALIDATION_ERROR \/ e = NOT_FOUND) /\ s' = s.
Proof.
  unfold productUpdate. destruct (paramsSchema params) as [k|].
  - destruct (updateSchema body) as [updateData|].
    + unfold bind, productStore.getById, productStore.update, ret.
      destruct (Map_get (records s) k) eqn:Hget.
      * rewrite Hget. discriminate.
      * intros [= <- <-]. auto.
    + intros [= <- <-]. auto.
  - intros [= <- <-]. auto.
Qed.

Lemma productDelete_fails (params : jsval) (s s' : ProductStore)
  (e : Error) :
  productDelete params s = (Thrown e, s') ->
  (e = VALIDATION_ERROR \/ e = NOT_FOUND) /\ s' = s.
Proof.
  unfold productDelete. destruct (paramsSchema params) as [k|].
  - unfold bind, productStore.exists_, productStore.delete, ret. simpl.
    destruct (Map_has (records s) k); simpl; [discriminate|].
    intros [= <- <-]. auto.
  - intros [= <- <-]. auto.
Qed.
End FailureFacts.

(** C7, as the specification words it, fails: a create on a store that
    holds the maximum number of records throws the capacity fault and
    leaves the identifier counter one higher than it found it. *)
Lemma create_at_capacity_counterexample :
  Map_size (records full_store) = 10000 /\
  fst (run_service (rt := example_runtime) (Create example_body 5) full_store)
    = Some CAPACITY_FAULT /\
  snd (run_service (rt := example_runtime) (Create example_body 5) full_store)
    <> full_store.
Proof.
  split; [vm_compute; reflexivity|].
  split; [vm_compute; reflexivity|].
  intros E. apply (f_equal currentId) in E. vm_compute in E. discriminate.
Qed.

(** C7, amended.  A call that throws leaves the records as they were.  It
    throws VALIDATION_ERROR or NOT_FOUND, and then the identifier counter is
    also as it was; or it is a create on a store that holds the maximum
    number of records, which throws the capacity fault after it has taken
    an identifier: the counter is one higher. *)
Theorem failed_call_effect {rt : Runtime} (c : ServiceCall)
  (s s' : ProductStore) (e : Error) :
  run_service c s = (Some e, s') ->
  records s' = records s /\
  (((e = VALIDATION_ERROR \/ e = NOT_FOUND) /\ s' = s) \/
   ((exists body now, c = Create body now) /\
    e = CAPACITY_FAULT /\
    PRODUCT_DEFAULTS.MAX_RECORDS <= Map_size (records s) /\
    currentId s' = currentId s + 1)).
Proof.
  destruct c as [query | params | body now | params body now | params]; simpl.
  - destruct (productList query s) as [[r|e0] s0] eqn:Hrun; [discriminate|].
    intros [= <- <-]. destruct (productList_fails _ _ Hrun) as [-> ->]. auto.
  - destruct (productGet params s) as [[r|e0] s0] eqn:Hrun; [discriminate|].
    intros [= <- <-]. destruct (productGet_fails _ _ Hrun) as [He ->]. auto.
  - destruct (productCreate body now s) as [[r|e0] s0] eqn:Hrun;
      [discriminate|].
    intros [= <- <-].
    destruct (productCreate_fails _ _ _ Hrun) as [[-> ->] | (-> & Hfull & ->)].
    + auto.
    + simpl. split; [reflexivity|]. right. eauto 6.
  - destruct (productUpdate params body now s) as [[r|e0] s0] eqn:Hrun;
      [discriminate|].
    intros [= <- <-]. destruct (productUpdate_fails _ _ _ _ Hrun) as [He ->].
    auto.
  - destruct (productDelete params s) as [[r|e0] s0] eqn:Hrun; [discriminate|].
    intros [= <- <-]. destruct (productDelete_fails _ _ Hrun) as [He ->]. auto.
Qed.

(** A get of an identifier that the store does not hold. *)
Lemma failed_call_effect_witness :
  records one_product = records one_product /\
  (((NOT_FOUND = VALIDATION_ERROR \/ NOT_FOUND = NOT_FOUND) /\
    one_product = one_product) \/
   ((exists body now, Get (id_params 9) = Create body now) /\
    NOT_FOUND = CAPACITY_FAULT /\
    PRODUCT_DEFAULTS.MAX_RECORDS <= Map_size (records one_product) /\
    currentId one_product = currentId one_product + 1)).
Proof.
  apply (@failed_call_effect example_runtime (Get (id_params 9))).
  vm_compute. reflexivity.
Defined.

(** ** Refused queries and defaults *)

Section ValidationFacts.
Context {rt : Runtime}.

Lemma optional_default_present (A : Type) (sch : Schema A) (d : A)
  (v : jsval) :
  v <> JUndefined -> z_optional_default sch d v = sch v.
Proof. destruct v; [contradiction | reflexivity ..]. Qed.

Lemma z_enum_outside (values : list string) (v : jsval) :
  outside values v -> z_optional (z_enum values) v = None.
Proof.
  intros [Hv Hout]. destruct v; try contradiction; try reflexivity.
  unfold z_optional, z_enum, z_refine, z_string.
  destruct (existsb (String.eqb s) values) eqn:Hex; [|reflexivity].
  apply existsb_exists in Hex. destruct Hex as (c & Hc & E).
  apply String.eqb_eq in E. subst c. destruct (Hout s Hc eq_refl).
Qed.

Lemma int_number_is (q : Q) :
  z_int q = true -> number_is (Num q) (Qfloor q).
Proof. unfold z_int, isInteger. intros Hint. apply Qeq_bool_iff, Hint. Qed.

Lemma pageSchema_bad (v : jsval) : bad_page v -> pageSchema v = None.
Proof.
  intros [Hv Hbad]. unfold pageSchema.
  rewrite optional_default_present by exact Hv.
  unfold z_transform, z_refine, z_coerce_number, z_number.
  destruct (ToNumber v) as [|q]; [reflexivity|].
  destruct (z_int q) eqn:Hint; [|reflexivity].
  destruct (z_positive q) eqn:Hpos; [|reflexivity].
  destruct (Hbad (Qfloor q)).
  - apply int_positive_floor; assumption.
  - apply int_number_is, Hint.
Qed.

Lemma pageSizeSchema_bad (v : jsval) :
  bad_pageSize v -> pageSizeSchema v = None.
Proof.
  intros [Hv Hbad]. unfold pageSizeSchema.
  rewrite optional_default_present by exact Hv.
  unfold z_transform, z_refine, z_coerce_number, z_number.
  destruct (ToNumber v) as [|q]; [reflexivity|].
  destruct (z_int q) eqn:Hint; [|reflexivity]. cbn [option_map].
  destruct (existsb (Z.eqb (Qfloor q)) pageSizes) eqn:Hex; [|reflexivity].
  apply existsb_exists in Hex. destruct Hex as (n & Hn & E).
  apply Z.eqb_eq in E. subst n.
  destruct (Hbad (Qfloor q) Hn). apply int_number_is, Hint.
Qed.

Lemma listQuerySchema_bad (o : list (string * jsval)) :
  outside categories (prop o "category") \/
  bad_pageSize (prop o "pageSize") \/
  outside sortOrders (prop o "sort") \/
  bad_page (prop o "page") ->
  listQuerySchema (JObject o) = None.
Proof.
  intros Hbad. unfold listQuerySchema, and_then.
  destruct Hbad as [Hc | [Hps | [Hso | Hp]]].
  - rewrite (z_enum_outside Hc). reflexivity.
  - rewrite (pageSizeSchema_bad Hps).
    destruct (z_optional (z_enum categories) _); [|reflexivity].
    destruct (z_optional (z_enum sortOrders) _); [|reflexivity].
    destruct (pageSchema _); reflexivity.
  - rewrite (z_enum_outside Hso).
    destruct (z_optional (z_enum categories) _); reflexivity.
  - rewrite (pageSchema_bad Hp).
    destruct (z_optional (z_enum categories) _); [|reflexivity].
    destruct (z_optional (z_enum sortOrders) _); reflexivity.
Qed.


End ValidationFacts.



(** * Further properties of the store and of the service *)

(** ** The map of the store, with distinct keys *)

Section MapLaws.
Variable V : Type.

Lemma Map_get_set_other (m : JsMap V) (k k' : Z) (v : V) :
  k' <> k -> Map_get (Map_set m k v) k' = Map_get m k'.
Proof.
  intros Hk. induction m as [|[k0 v0] rest IH]; simpl.
  - destruct (Z.eqb_spec k k'); [congruence | reflexivity].
  - destruct (Z.eqb_spec k0 k) as [E|E]; simpl.
    + subst k0. destruct (Z.eqb_spec k k'); [congruence | reflexivity].
    + destruct (Z.eqb_spec k0 k'); [reflexivity | exact IH].
Qed.

Lemma Map_get_None (m : JsMap V) (k : Z) :
  Map_get m k = None <-> ~ In k (Map_keys m).
Proof.
  induction m as [|[k0 v0] rest IH]; simpl.
  - tauto.
  - destruct (Z.eqb_spec k0 k) as [E|E].
    + split; [discriminate | intros Hn; destruct Hn; auto].
    + rewrite IH. tauto.
Qed.

Lemma Map_has_In (m : JsMap V) (k : Z) :
  Map_has m k = true <-> In k (Map_keys m).
Proof.
  unfold Map_has. pose proof (Map_get_None m k) as Hn.
  destruct (Map_get m k).
  - split; [|reflexivity]. intros _.
    destruct (in_dec Z.eq_dec k (Map_keys m)) as [Hin|Hout]; [exact Hin|].
    apply Hn in Hout. discriminate.
  - split; [discriminate|]. intros Hin. destruct (proj1 Hn eq_refl Hin).
Qed.

(** [set] on a key the map holds keeps the keys; on a new key it appends. *)
Lemma Map_set_present (m : JsMap V) (k : Z) (v : V) :
  Map_has m k = true -> Map_keys (Map_set m k v) = Map_keys m.
Proof.
  unfold Map_has. induction m as [|[k0 v0] rest IH]; simpl.
  - discriminate.
  - destruct (Z.eqb_spec k0 k) as [E|E]; simpl.
    + intros _. congruence.
    + intros Hk. f_equal. apply IH, Hk.
Qed.

Lemma Map_set_absent (m : JsMap V) (k : Z) (v : V) :
  Map_has m k = false -> Map_set m k v = (m ++ [(k, v)])%list.
Proof.
  unfold Map_has. induction m as [|[k0 v0] rest IH]; simpl.
  - reflexivity.
  - destruct (Z.eqb_spec k0 k) as [E|E]; [discriminate|].
    intros Hk. f_equal. apply IH, Hk.
Qed.

Lemma Map_set_size (m : JsMap V) (k : Z) (v : V) :
  Map_size (Map_set m k v)
  = if Map_has m k then Map_size m else Map_size m + 1.
Proof.
  unfold Map_size. destruct (Map_has m k) eqn:Hk.
  - pose proof (f_equal (@List.length Z) (Map_set_present m k v Hk)) as E.
    unfold Map_keys in E. rewrite !length_map in E. congruence.
  - rewrite (Map_set_absent m k v Hk), length_app. simpl. lia.
Qed.

Lemma Map_set_NoDup (m : JsMap V) (k : Z) (v : V) :
  NoDup (Map_keys m) -> NoDup (Map_keys (Map_set m k v)).
Proof.
  intros Hm. destruct (Map_has m k) eqn:Hk.
  - rewrite Map_set_present by exact Hk. exact Hm.
  - rewrite Map_set_absent by exact Hk. unfold Map_keys.
    rewrite map_app. simpl.
    apply NoDup_app; [exact Hm | repeat constructor; auto |].
    intros x Hx [<-|[]].
    apply Map_has_In in Hx. congruence.
Qed.

Lemma Map_delete_keys (m : JsMap V) (k k' : Z) :
  In k' (Map_keys (Map_delete m k)) -> In k' (Map_keys m).
Proof.
  induction m as [|[k0 v0] rest IH]; simpl; [tauto|].
  destruct (Z.eqb_spec k0 k); simpl; [tauto|].
  intros [E|Hin]; [left; exact E | right; apply IH, Hin].
Qed.

Lemma Map_delete_NoDup (m : JsMap V) (k : Z) :
  NoDup (Map_keys m) -> NoDup (Map_keys (Map_delete m k)).
Proof.
  induction m as [|[k0 v0] rest IH]; simpl; [trivial|].
  intros Hm. inversion Hm as [|? ? Hout Hrest]; subst.
  destruct (Z.eqb_spec k0 k); simpl; [exact Hrest|].
  constructor; [|apply IH, Hrest].
  intros Hin. apply Hout. eapply Map_delete_keys. exact Hin.
Qed.

Lemma Map_delete_gone (m : JsMap V) (k : Z) :
  NoDup (Map_keys m) -> Map_get (Map_delete m k) k = None.
Proof.
  induction m as [|[k0 v0] rest IH]; simpl; [reflexivity|].
  intros Hm. inversion Hm as [|? ? Hout Hrest]; subst.
  destruct (Z.eqb_spec k0 k) as [E|E]; simpl.
  - subst k0. apply Map_get_None, Hout.
  - destruct (Z.eqb_spec k0 k); [contradiction | apply IH, Hrest].
Qed.

Lemma Map_delete_other (m : JsMap V) (k k' : Z) :
  k' <> k -> Map_get (Map_delete m k) k' = Map_get m k'.
Proof.
  intros Hk. induction m as [|[k0 v0] rest IH]; simpl; [reflexivity|].
  destruct (Z.eqb_spec k0 k) as [E|E]; simpl.
  - subst k0. destruct (Z.eqb_spec k k'); [congruence | reflexivity].
  - destruct (Z.eqb_spec k0 k'); [reflexivity | exact IH].
Qed.

Lemma Map_delete_size (m : JsMap V) (k : Z) :
  Map_size (Map_delete m k)
  = if Map_has m k then Map_size m - 1 else Map_size m.
Proof.
  unfold Map_size, Map_has. induction m as [|[k0 v0] rest IH].
  - reflexivity.
  - cbn [Map_delete Map_get].
    destruct (Z.eqb_spec k0 k) as [E|E]; cbn [List.length];
      rewrite ?Nat2Z.inj_succ; [lia|].
    revert IH. destruct (Map_get rest k); intros IH; lia.
Qed.
End MapLaws.

(** ** The methods of the store *)

Lemma run_call_keys (c : StoreCall) (s : ProductStore) :
  NoDup (Map_keys (records s)) ->
  NoDup (Map_keys (records (snd (run_call c s)))).
Proof.
  intros Hs. destruct c; simpl; try exact Hs.
  - unfold productStore.add. destruct (Z.geb _ _); simpl;
      [exact Hs | apply Map_set_NoDup, Hs].
  - unfold productStore.update. destruct (Map_get _ _); simpl;
      [apply Map_set_NoDup, Hs | exact Hs].
  - apply Map_delete_NoDup, Hs.
  - constructor.
Qed.

Lemma reachable_keys (s : ProductStore) :
  reachable s -> NoDup (Map_keys (records s)).
Proof.
  induction 1 as [|c s Hs IH]; [constructor | apply run_call_keys, IH].
Qed.

(** X1.  The store never grows past [MAX_RECORDS], whatever is called on it:
    [add] refuses at the bound and [update] only writes keys it found. *)
Theorem store_never_exceeds_capacity (s : ProductStore) :
  reachable s ->
  Map_size (records s) <= PRODUCT_DEFAULTS.MAX_RECORDS.
Proof.
  induction 1 as [|c s Hs IH];
    [unfold Map_size, PRODUCT_DEFAULTS.MAX_RECORDS; simpl; lia|].
  destruct c; simpl; try exact IH.
  - unfold productStore.add.
    destruct (Z.geb_spec (Map_size (records s)) PRODUCT_DEFAULTS.MAX_RECORDS);
      simpl; [exact IH|].
    rewrite Map_set_size. destruct (Map_has _ _); lia.
  - unfold productStore.update.
    destruct (Map_get (records s) k) eqn:Hget; simpl; [|exact IH].
    rewrite Map_set_size. unfold Map_has. rewrite Hget. exact IH.
  - rewrite Map_delete_size. destruct (Map_has _ _); lia.
  - unfold Map_size, PRODUCT_DEFAULTS.MAX_RECORDS. simpl. lia.
Qed.

Lemma store_never_exceeds_capacity_witness :
  Map_size (records one_product) <= PRODUCT_DEFAULTS.MAX_RECORDS.
Proof.
  apply (store_never_exceeds_capacity
           (reachable_call
              (CallAdd (example_record 1 false (Some 100%Q) 0))
              (reachable_call CallGetNextId reachable_new))).
Defined.

(** X2.  Below the bound, [add] files the record under its [id]: [getById] of
    that id returns it, every other id reads as before, the counter is not
    touched; a new id is appended to [getAll] and counted, an id already
    present is overwritten in place without any error. *)
Theorem add_then_getById (s : ProductStore) (record : ProductRecord) :
  Map_size (records s) < PRODUCT_DEFAULTS.MAX_RECORDS ->
  exists s',
    productStore.add record s = (Returned record, s') /\
    fst (productStore.getById (id record) s') = Returned (Some record) /\
    (forall k, k <> id record ->
       fst (productStore.getById k s') = fst (productStore.getById k s)) /\
    currentId s' = currentId s /\
    (fst (productStore.exists_ (id record) s) = Returned false ->
     fst (productStore.getAll s')
       = Returned (Map_values (records s) ++ [record])%list /\
     fst (productStore.count s')
       = Returned (Map_size (records s) + 1)) /\
    (fst (productStore.exists_ (id record) s) = Returned true ->
     Map_keys (records s') = Map_keys (records s) /\
     fst (productStore.count s') = fst (productStore.count s)).
Proof.
  intros Hroom. eexists. split.
  - unfold productStore.add.
    destruct (Z.geb_spec (Map_size (records s)) PRODUCT_DEFAULTS.MAX_RECORDS);
      [lia | reflexivity].
  - simpl. split; [rewrite Map_get_set_same; reflexivity|].
    split; [intros k Hk; rewrite Map_get_set_other by exact Hk; reflexivity|].
    split; [reflexivity|]. split.
    + intros [= Hnew]. rewrite Map_set_size, Hnew.
      rewrite Map_set_absent by exact Hnew.
      unfold Map_values. rewrite map_app. auto.
    + intros [= Hold]. rewrite Map_set_size, Hold.
      rewrite Map_set_present by exact Hold. auto.
Qed.

Lemma add_then_getById_witness :
  exists s',
    productStore.add (example_created 2 7) one_product
      = (Returned (example_created 2 7), s') /\
    fst (productStore.getById 2 s') = Returned (Some (example_created 2 7)).
Proof.
  destruct (add_then_getById one_product (example_created 2 7))
    as (s' & Hadd & Hget & _).
  - vm_compute. reflexivity.
  - exists s'. split; [exact Hadd | exact Hget].
Defined.

(** X3.  [delete] answers whether the id was stored; afterwards the id is not
    stored, every other id reads as before, the count is one lower exactly
    when the id was stored, and the counter is not touched. *)
Theorem delete_then_exists (s : ProductStore) (k : Z) :
  reachable s ->
  let s' := snd (productStore.delete k s) in
  fst (productStore.delete k s) = fst (productStore.exists_ k s) /\
  fst (productStore.exists_ k s') = Returned false /\
  fst (productStore.getById k s') = Returned None /\
  (forall k', k' <> k ->
     fst (productStore.getById k' s') = fst (productStore.getById k' s)) /\
  Map_size (records s')
    = (if Map_has (records s) k
       then Map_size (records s) - 1
       else Map_size (records s)) /\
  currentId s' = currentId s.
Proof.
  intros Hs. apply reachable_keys in Hs. simpl.
  split; [reflexivity|].
  assert (Hgone : Map_get (Map_delete (records s) k) k = None)
    by (apply Map_delete_gone, Hs).
  split; [unfold Map_has; rewrite Hgone; reflexivity|].
  split; [rewrite Hgone; reflexivity|].
  split; [intros k' Hk; rewrite Map_delete_other by exact Hk; reflexivity|].
  split; [apply Map_delete_size | reflexivity].
Qed.

Lemma delete_then_exists_witness :
  fst (productStore.exists_ 1 (snd (productStore.delete 1 one_product)))
  = Returned false.
Proof.
  apply (delete_then_exists 1
           (reachable_call
              (CallAdd (example_record 1 false (Some 100%Q) 0))
              (reachable_call CallGetNextId reachable_new))).
Defined.

(** X4.  [update] of an id that is not stored returns [undefined] and changes
    nothing.  On a stored id it returns the merged record and stores it
    where the old one stood: [getById] returns it, the other ids read as
    before, and the keys, their order and the counter are as they were. *)
Theorem update_then_getById (s : ProductStore) (k : Z)
  (data : PartialProductRecord) :
  (fst (productStore.getById k s) = Returned None ->
   productStore.update k data s = (Returned None, s)) /\
  (forall existing,
     fst (productStore.getById k s) = Returned (Some existing) ->
     exists s',
       productStore.update k data s
         = (Returned (Some (spread existing data)), s') /\
       fst (productStore.getById k s')
         = Returned (Some (spread existing data)) /\
       (forall k', k' <> k ->
          fst (productStore.getById k' s')
          = fst (productStore.getById k' s)) /\
       Map_keys (records s') = Map_keys (records s) /\
       currentId s' = currentId s).
Proof.
  unfold productStore.getById, productStore.update. simpl. split.
  - intros [= Hget]. rewrite Hget. reflexivity.
  - intros existing [= Hget]. rewrite Hget. eexists.
    split; [reflexivity|]. simpl.
    split; [rewrite Map_get_set_same; reflexivity|].
    split; [intros k' Hk; rewrite Map_get_set_other by exact Hk; reflexivity|].
    split; [|reflexivity].
    apply Map_set_present. unfold Map_has. rewrite Hget. reflexivity.
Qed.

Lemma update_then_getById_witness :
  productStore.update 9
    {| p_id := None; p_name := Some "Mesa"; p_description := None;
       p_mainImage := None; p_images := None; p_price := None;
       p_category := None; p_shortDescription := None;
       p_dimensions := None; p_featured := None; p_isNew := None;
       p_onSale := None; p_available := None; p_dateCreated := None;
       p_dateModified := None |} one_product
  = (Returned None, one_product).
Proof.
  apply (proj1 (update_then_getById one_product 9 _)). reflexivity.
Defined.

(** ** What a parsed body says about the body *)

Section BodyFacts.
Context {rt : Runtime}.

Lemma z_refine_inv (A : Type) (sch : Schema A) (ok : A -> bool) (v : jsval)
  (a : A) :
  z_refine sch ok v = Some a -> sch v = Some a /\ ok a = true.
Proof.
  unfold z_refine. destruct (sch v) as [x|]; [|discriminate].
  destruct (ok x) eqn:Hok; [|discriminate]. intros [= <-]. auto.
Qed.

Lemma z_string_inv (v : jsval) (t : string) :
  z_string v = Some t -> v = JString t.
Proof. destruct v; try discriminate. intros [= <-]. reflexivity. Qed.

Lemma z_boolean_inv (v : jsval) (b : bool) :
  z_boolean v = Some b -> v = JBool b.
Proof. destruct v; try discriminate. intros [= <-]. reflexivity. Qed.

Lemma name_inv (n : nat) (v : jsval) (t : string) :
  z_refine (z_refine z_string (z_min 1)) (z_max n) v = Some t ->
  v = JString t /\
  (1 <=? String.length t)%nat = true /\ (String.length t <=? n)%nat = true.
Proof.
  intros Hp. apply z_refine_inv in Hp. destruct Hp as [Hp Hmax].
  apply z_refine_inv in Hp. destruct Hp as [Hp Hmin].
  apply z_string_inv in Hp. auto.
Qed.

Lemma text_inv (n : nat) (v : jsval) (text : option string) :
  z_nullable (z_refine z_string (z_max n)) v = Some text ->
  reads_text v text /\ within n text = true.
Proof.
  unfold z_nullable.
  destruct v; simpl; try discriminate;
    try (intros [= <-]; simpl; auto; fail).
  destruct (z_refine z_string (z_max n) (JString s)) as [t|] eqn:Hp;
    [|discriminate].
  intros [= <-]. apply z_refine_inv in Hp. destruct Hp as [Hp Hmax].
  apply z_string_inv in Hp. simpl. auto.
Qed.

Lemma url_inv (v : jsval) (t : string) :
  z_refine z_string z_url v = Some t -> v = JString t /\ is_url t = true.
Proof.
  intros Hp. apply z_refine_inv in Hp. destruct Hp as [Hp Hurl].
  apply z_string_inv in Hp. auto.
Qed.

Lemma parse_all_urls (elems : list jsval) (urls : list string) :
  parse_all (z_refine z_string z_url) elems = Some urls ->
  elems = map JString urls /\ forallb is_url urls = true.
Proof.
  revert urls. induction elems as [|v rest IH]; intros urls; simpl.
  - intros [= <-]. auto.
  - unfold and_then.
    destruct (z_refine z_string z_url v) as [t|] eqn:Hv; [|discriminate].
    destruct (parse_all _ rest) as [l|]; [|discriminate].
    intros [= <-]. apply url_inv in Hv. destruct Hv as [-> Hurl].
    destruct (IH l eq_refl) as [-> Hall]. simpl.
    rewrite Hurl, Hall. auto.
Qed.

Lemma images_inv (v : jsval) (urls : list string) :
  z_optional_default (z_array (z_refine z_string z_url)) [] v = Some urls ->
  reads_images v urls /\ forallb is_url urls = true.
Proof.
  unfold z_optional_default, z_array, reads_images.
  destruct v; try discriminate.
  - intros [= <-]. auto.
  - intros Hp. apply parse_all_urls in Hp. destruct Hp as [-> Hall]. auto.
Qed.

Lemma price_inv (v : jsval) (cost : option Q) :
  z_nullable (z_refine z_number z_positive) v = Some cost ->
  reads_price v cost /\ positive_or_null cost = true.
Proof.
  unfold z_nullable.
  destruct v; simpl; try discriminate;
    try (intros [= <-]; simpl; auto; fail).
  destruct (z_refine z_number z_positive (JNumber n)) as [q|] eqn:Hp;
    [|discriminate].
  intros [= <-]. apply z_refine_inv in Hp. destruct Hp as [Hp Hpos].
  destruct n as [|q']; [discriminate|]. injection Hp as ->. simpl. auto.
Qed.

Lemma enum_inv (values : list string) (v : jsval) (c : string) :
  z_enum values v = Some c ->
  v = JString c /\ existsb (String.eqb c) values = true.
Proof.
  intros Hp. apply z_refine_inv in Hp. destruct Hp as [Hp Hin].
  apply z_string_inv in Hp. auto.
Qed.

Lemma flag_inv (d : bool) (v : jsval) (b : bool) :
  z_optional_default z_boolean d v = Some b -> reads_flag d v b.
Proof.
  unfold z_optional_default, reads_flag.
  destruct v; try discriminate; intros [= <-]; auto.
Qed.

Ltac parse_steps H :=
  repeat match type of H with
         | and_then ?c _ = Some _ =>
             let E := fresh "E" in
             destruct c eqn:E; [cbn [and_then] in H | discriminate H]
         end.

Lemma createSchema_inv (body : jsval) (input : CreateInput) :
  createSchema body = Some input ->
  exists o,
    body = JObject o /\
    reads_input o input /\
    valid_input input = true /\
    reads_images (prop o "images") (in_images input) /\
    reads_flag false (prop o "featured") (in_featured input) /\
    reads_flag false (prop o "onSale") (in_onSale input) /\
    reads_flag true (prop o "available") (in_available input).
Proof.
  destruct body as [| | | | | |o]; try discriminate.
  unfold createSchema. intros Hp. parse_steps Hp.
  injection Hp as <-. exists o.
  apply name_inv in E. destruct E as (E & Hmin & Hmax).
  apply text_inv in E0. destruct E0 as [E0 Hd].
  apply url_inv in E1. destruct E1 as [E1 Hurl].
  apply images_inv in E2. destruct E2 as [E2 Himgs].
  apply price_inv in E3. destruct E3 as [E3 Hpos].
  apply enum_inv in E4. destruct E4 as [E4 Hcat].
  apply text_inv in E5. destruct E5 as [E5 Hsd].
  apply text_inv in E6. destruct E6 as [E6 Hdim].
  apply flag_inv in E7, E8, E9.
  split; [reflexivity|]. unfold reads_input, valid_input, valid_values.
  cbn [in_name in_description in_mainImage in_images in_price in_category
       in_shortDescription in_dimensions in_featured in_onSale in_available].
  rewrite Hmin, Hmax, Hd, Hurl, Himgs, Hpos, Hcat, Hsd, Hdim.
  repeat split; assumption.
Qed.

Lemma updateSchema_inv (body : jsval) (input : UpdateInput) :
  updateSchema body = Some input ->
  exists o,
    body = JObject o /\
    reads_input o input /\
    valid_input input = true /\
    prop o "featured" = JBool (in_featured input) /\
    prop o "onSale" = JBool (in_onSale input) /\
    prop o "available" = JBool (in_available input).
Proof.
  destruct body as [| | | | | |o]; try discriminate.
  unfold updateSchema. intros Hp. parse_steps Hp.
  injection Hp as <-. exists o.
  apply name_inv in E. destruct E as (E & Hmin & Hmax).
  apply text_inv in E0. destruct E0 as [E0 Hd].
  apply url_inv in E1. destruct E1 as [E1 Hurl].
  apply images_inv in E2. destruct E2 as [E2 Himgs].
  apply price_inv in E3. destruct E3 as [E3 Hpos].
  apply enum_inv in E4. destruct E4 as [E4 Hcat].
  apply text_inv in E5. destruct E5 as [E5 Hsd].
  apply text_inv in E6. destruct E6 as [E6 Hdim].
  apply z_boolean_inv in E7, E8, E9.
  split; [reflexivity|]. unfold reads_input, valid_input, valid_values.
  cbn [in_name in_description in_mainImage in_images in_price in_category
       in_shortDescription in_dimensions in_featured in_onSale in_available].
  rewrite Hmin, Hmax, Hd, Hurl, Himgs, Hpos, Hcat, Hsd, Hdim.
  repeat split; assumption.
Qed.
End BodyFacts.

(** ** What the service keeps true of the store *)

Section ServiceInvariant.
Context {rt : Runtime}.

Lemma Forall_Map_set (V : Type) (P : Z * V -> Prop) (m : JsMap V) (k : Z)
  (v : V) :
  Forall P m -> P (k, v) -> Forall P (Map_set m k v).
Proof.
  intros Hm Hv. induction Hm as [|[k0 v0] rest H0 Hrest IH]; simpl.
  - constructor; [exact Hv | constructor].
  - destruct (Z.eqb k0 k); constructor; assumption.
Qed.

Lemma Forall_Map_delete (V : Type) (P : Z * V -> Prop) (m : JsMap V)
  (k : Z) :
  Forall P m -> Forall P (Map_delete m k).
Proof.
  induction 1 as [|[k0 v0] rest H0 Hrest IH]; simpl.
  - constructor.
  - destruct (Z.eqb k0 k); [exact Hrest | constructor; assumption].
Qed.

Lemma Map_get_In (V : Type) (m : JsMap V) (k : Z) (v : V) :
  Map_get m k = Some v -> In (k, v) m.
Proof.
  induction m as [|[k0 v0] rest IH]; simpl; [discriminate|].
  destruct (Z.eqb_spec k0 k) as [E|E].
  - intros [= <-]. left. congruence.
  - intros Hget. right. apply IH, Hget.
Qed.

Lemma In_Map_get (V : Type) (m : JsMap V) (k : Z) (v : V) :
  NoDup (Map_keys m) -> In (k, v) m -> Map_get m k = Some v.
Proof.
  induction m as [|[k0 v0] rest IH]; simpl; [tauto|].
  intros Hm. inversion Hm as [|? ? Hout Hrest]; subst.
  intros [[= -> ->]|Hin].
  - rewrite Z.eqb_refl. reflexivity.
  - destruct (Z.eqb_spec k0 k) as [E|E]; [|apply IH; assumption].
    subst k0. destruct Hout. unfold Map_keys.
    apply in_map_iff. exists (k, v). auto.
Qed.

Lemma filed_counter (s s' : ProductStore) (entry : Z * ProductRecord) :
  currentId s <= currentId s' -> filed s entry -> filed s' entry.
Proof.
  unfold filed. intros Hc (Hid & Hk & Hv). repeat split; try lia; auto.
Qed.

Lemma Forall_filed_counter (s s' : ProductStore)
  (m : JsMap ProductRecord) :
  currentId s <= currentId s' -> Forall (filed s) m -> Forall (filed s') m.
Proof.
  intros Hc Hm. eapply Forall_impl; [|exact Hm].
  intros entry. apply filed_counter, Hc.
Qed.

Lemma productCreate_invariant (body : jsval) (now : Z) (s : ProductStore) :
  store_invariant s -> store_invariant (snd (productCreate body now s)).
Proof.
  intros (Hc & Hkeys & Hfiled). unfold productCreate.
  destruct (createSchema body) as [input|] eqn:Hbody;
    [|repeat split; assumption].
  destruct (createSchema_inv _ Hbody) as (o & _ & _ & Hvalid & _).
  unfold bind, productStore.getNextId, productStore.add, ret. simpl.
  destruct (Z.geb _ _); simpl.
  - repeat split; simpl; try lia; try assumption.
    apply Forall_filed_counter with (s := s); [simpl; lia | exact Hfiled].
  - repeat split; simpl; try lia.
    + apply Map_set_NoDup, Hkeys.
    + apply Forall_Map_set.
      * apply Forall_filed_counter with (s := s); [simpl; lia | exact Hfiled].
      * repeat split; simpl; try lia. exact Hvalid.
Qed.

Lemma productUpdate_invariant (params body : jsval) (now : Z)
  (s : ProductStore) :
  store_invariant s ->
  store_invariant (snd (productUpdate params body now s)).
Proof.
  intros (Hc & Hkeys & Hfiled). unfold productUpdate.
  destruct (paramsSchema params) as [k|]; [|repeat split; assumption].
  destruct (updateSchema body) as [input|] eqn:Hbody;
    [|repeat split; assumption].
  destruct (updateSchema_inv _ Hbody) as (o & _ & _ & Hvalid & _).
  unfold bind, productStore.getById, productStore.update, ret.
  destruct (Map_get (records s) k) as [existing|] eqn:Hget;
    [|repeat split; assumption].
  rewrite Hget. simpl.
  pose proof (proj1 (Forall_forall _ _) Hfiled _ (Map_get_In _ _ Hget))
    as (Hid & Hk & _).
  repeat split; simpl; try lia.
  - apply Map_set_NoDup, Hkeys.
  - apply Forall_Map_set; [exact Hfiled|].
    repeat split; simpl in *; try lia; try assumption.
Qed.

Lemma productDelete_invariant (params : jsval) (s : ProductStore) :
  store_invariant s -> store_invariant (snd (productDelete params s)).
Proof.
  intros (Hc & Hkeys & Hfiled). unfold productDelete.
  destruct (paramsSchema params) as [k|]; [|repeat split; assumption].
  unfold bind, productStore.exists_, productStore.delete, ret. simpl.
  destruct (Map_has (records s) k); simpl; [|repeat split; assumption].
  repeat split; simpl; try lia.
  - apply Map_delete_NoDup, Hkeys.
  - apply Forall_Map_delete, Hfiled.
Qed.

Lemma run_service_invariant (c : ServiceCall) (s : ProductStore) :
  store_invariant s -> store_invariant (snd (run_service c s)).
Proof.
  intros Hs.
  destruct c as [query | params | body now | params body now | params]; simpl.
  - unfold productList. destruct (listQuerySchema query); exact Hs.
  - unfold productGet. destruct (paramsSchema params) as [k|]; [|exact Hs].
    unfold bind, productStore.getById.
    destruct (Map_get (records s) k); exact Hs.
  - pose proof (productCreate_invariant body now Hs) as H1.
    destruct (productCreate body now s) as [[r|e] s1]; exact H1.
  - pose proof (productUpdate_invariant params body now Hs) as H1.
    destruct (productUpdate params body now s) as [[r|e] s1]; exact H1.
  - pose proof (productDelete_invariant params Hs) as H1.
    destruct (productDelete params s) as [[r|e] s1]; exact H1.
Qed.

Lemma service_reachable_invariant (s : ProductStore) :
  service_reachable s -> store_invariant s.
Proof.
  induction 1 as [|c s Hs IH].
  - repeat split; simpl; try lia; constructor.
  - apply run_service_invariant, IH.
Qed.
End ServiceInvariant.

(** ** Identifiers on the wire *)

Section IdFacts.
Context {rt : Runtime}.

Lemma number_is_floor (q : Q) (k : Z) :
  number_is (Num q) k -> Qfloor q = k.
Proof. simpl. intros Hq. rewrite (Qfloor_comp _ _ Hq). apply Qfloor_Z. Qed.

Lemma paramsSchema_number (o : list (string * jsval)) (k : Z) :
  number_is (ToNumber (prop o "id")) k -> 1 <= k ->
  paramsSchema (JObject o) = Some k.
Proof.
  intros Hnum Hk. unfold paramsSchema, z_refine, z_coerce_number, z_number.
  destruct (ToNumber (prop o "id")) as [|q]; [destruct Hnum|].
  pose proof (@number_is_floor q k Hnum) as Hfloor. simpl in Hnum.
  assert (Hint : z_int q = true).
  { unfold z_int, isInteger. apply Qeq_bool_iff. rewrite Hfloor. exact Hnum. }
  assert (Hpos : z_positive q = true).
  { unfold z_positive. apply negb_true_iff.
    destruct (Qle_bool q 0) eqn:E; [|reflexivity].
    apply Qle_bool_iff in E. rewrite Hnum in E.
    change 0%Q with (inject_Z 0) in E. rewrite <- Zle_Qle in E. lia. }
  rewrite Hint, Hpos. unfold and_then. rewrite Hfloor. reflexivity.
Qed.

Lemma paramsSchema_not_an_id (o : list (string * jsval)) :
  not_an_id (ToNumber (prop o "id")) -> paramsSchema (JObject o) = None.
Proof.
  intros Hbad. unfold paramsSchema, z_refine, z_coerce_number, z_number.
  destruct (ToNumber (prop o "id")) as [|q]; [reflexivity|].
  destruct (z_int q) eqn:Hint; [|reflexivity].
  destruct (z_positive q) eqn:Hpos; [|reflexivity].
  destruct (Hbad (Qfloor q)).
  - apply int_positive_floor; assumption.
  - apply int_number_is, Hint.
Qed.

Lemma paramsSchema_inv (params : jsval) (k : Z) :
  paramsSchema params = Some k ->
  exists o, params = JObject o /\
            number_is (ToNumber (prop o "id")) k /\ 1 <= k.
Proof.
  destruct params as [| | | | | |o]; try discriminate.
  unfold paramsSchema, and_then.
  destruct (z_refine _ _ _) as [q|] eqn:Hp; [|discriminate].
  intros [= <-]. exists o. split; [reflexivity|].
  apply z_refine_inv in Hp. destruct Hp as [Hp Hpos].
  apply z_refine_inv in Hp. destruct Hp as [Hp Hint].
  unfold z_coerce_number, z_number in Hp.
  destruct (ToNumber (prop o "id")) as [|q']; [discriminate|].
  injection Hp as ->. split.
  - apply int_number_is, Hint.
  - apply int_positive_floor; assumption.
Qed.
End IdFacts.

(** ** The service, operation by operation *)

(** X5.  When only the service writes to the store, every stored product is
    filed under its own [id], an identifier between 1 and the counter, and
    no two stored products share an [id]. *)
Theorem service_files_by_id {rt : Runtime} (s : ProductStore) :
  service_reachable s ->
  (forall k p,
     fst (productStore.getById k s) = Returned (Some p) ->
     id p = k /\ 1 <= k <= currentId s) /\
  NoDup (map id (Map_values (records s))).
Proof.
  intros Hs. apply service_reachable_invariant in Hs.
  destruct Hs as (_ & Hkeys & Hfiled). split.
  - intros k p [= Hget]. apply Map_get_In in Hget.
    destruct (proj1 (Forall_forall _ _) Hfiled _ Hget) as (Hid & Hk & _).
    simpl in *. auto.
  - assert (E : map id (Map_values (records s)) = Map_keys (records s)).
    { unfold Map_values, Map_keys. rewrite map_map.
      apply map_ext_in. intros entry Hin.
      apply (proj1 (Forall_forall _ _) Hfiled _ Hin). }
    rewrite E. exact Hkeys.
Qed.

Lemma service_files_by_id_witness :
  (forall k p,
     fst (productStore.getById k
            (snd (run_service (rt := example_runtime)
                    (Create example_body 7) new_ProductStore)))
       = Returned (Some p) ->
     id p = k /\
     1 <= k <= currentId
                 (snd (run_service (rt := example_runtime)
                         (Create example_body 7) new_ProductStore))) /\
  NoDup (map id
           (Map_values
              (records
                 (snd (run_service (rt := example_runtime)
                         (Create example_body 7) new_ProductStore))))).
Proof.
  apply (@service_files_by_id example_runtime).
  apply service_call, service_new.
Defined.





(** X8.  A create that returns copied its fields from the body: the texts, the
    price and the category as carried, the images or none, the three flags
    or their defaults (not featured, not on sale, available), and the
    clock for both dates. *)
Theorem create_reads_body {rt : Runtime} (s s' : ProductStore)
  (body : jsval) (now : Z) (created : ProductEntity) :
  productCreate body now s = (Returned created, s') ->
  exists o,
    body = JObject o /\
    reads_fields o created /\
    reads_images (prop o "images") (images created) /\
    reads_flag false (prop o "featured") (featured created) /\
    reads_flag false (prop o "onSale") (onSale created) /\
    reads_flag true (prop o "available") (available created) /\
    dateCreated created = now /\
    dateModified created = now.
Proof.
  unfold productCreate.
  destruct (createSchema body) as [input|] eqn:Hbody; [|discriminate].
  destruct (createSchema_inv _ Hbody)
    as (o & -> & Hread & _ & Himg & Hf & Hs & Ha).
  unfold bind, productStore.getNextId, productStore.add, ret. simpl.
  destruct (Z.geb _ _); [discriminate|].
  intros [= <- _]. exists o. simpl. repeat split; try assumption;
    apply Hread.
Qed.

Lemma create_reads_body_witness :
  exists o,
    example_body = JObject o /\
    reads_fields o (example_created 1 7) /\
    reads_images (prop o "images") (images (example_created 1 7)) /\
    reads_flag false (prop o "featured") (featured (example_created 1 7)) /\
    reads_flag false (prop o "onSale") (onSale (example_created 1 7)) /\
    reads_flag true (prop o "available") (available (example_created 1 7)) /\
    dateCreated (example_created 1 7) = 7 /\
    dateModified (example_created 1 7) = 7.
Proof.
  apply (@create_reads_body example_runtime new_ProductStore
           (snd (productCreate (rt := example_runtime) example_body 7
                   new_ProductStore))).
  vm_compute. reflexivity.
Defined.

(** X9.  A delete that returns found the product stored and removed it: a get
    and a second delete of the same identifier answer NOT_FOUND, every
    other product is as it was, the count is one lower and the counter is
    not touched. *)
Theorem delete_then_not_found {rt : Runtime} (s s' : ProductStore)
  (params : jsval) (message : string) :
  service_reachable s ->
  productDelete params s = (Returned message, s') ->
  message = "Product deleted successfully" /\
  exists k,
    paramsSchema params = Some k /\
    fst (productStore.exists_ k s) = Returned true /\
    productGet params s' = (Thrown NOT_FOUND, s') /\
    productDelete params s' = (Thrown NOT_FOUND, s') /\
    (forall k', k' <> k ->
       fst (productStore.getById k' s') = fst (productStore.getById k' s)) /\
    Map_size (records s') = Map_size (records s) - 1 /\
    currentId s' = currentId s.
Proof.
  intros Hs. apply service_reachable_invariant in Hs.
  destruct Hs as (_ & Hkeys & _).
  unfold productDelete, productGet.
  destruct (paramsSchema params) as [k|]; [|discriminate].
  unfold bind, productStore.exists_, productStore.delete,
    productStore.getById, ret, throw. simpl.
  destruct (Map_has (records s) k) eqn:Hhas; simpl; [|discriminate].
  intros [= <- <-]. split; [reflexivity|]. exists k. simpl.
  assert (Hgone : Map_get (Map_delete (records s) k) k = None)
    by (apply Map_delete_gone, Hkeys).
  split; [reflexivity|]. split; [rewrite Hhas; reflexivity|].
  split; [rewrite Hgone; reflexivity|].
  split; [unfold Map_has; rewrite Hgone; reflexivity|].
  split; [intros k' Hk; rewrite Map_delete_other by exact Hk; reflexivity|].
  split; [rewrite Map_delete_size, Hhas; reflexivity | reflexivity].
Qed.

Lemma delete_then_not_found_witness :
  "Product deleted successfully" = "Product deleted successfully" /\
  exists k,
    paramsSchema (rt := example_runtime) (id_params 1) = Some k /\
    fst (productStore.exists_ k
           (snd (run_service (rt := example_runtime)
                   (Create example_body 7) new_ProductStore)))
      = Returned true /\
    productGet (rt := example_runtime) (id_params 1)
      {| records := []; currentId := 1 |}
      = (Thrown NOT_FOUND, {| records := []; currentId := 1 |}) /\
    productDelete (rt := example_runtime) (id_params 1)
      {| records := []; currentId := 1 |}
      = (Thrown NOT_FOUND, {| records := []; currentId := 1 |}) /\
    (forall k', k' <> k ->
       fst (productStore.getById k' {| records := []; currentId := 1 |})
       = fst (productStore.getById k'
                (snd (run_service (rt := example_runtime)
                        (Create example_body 7) new_ProductStore)))) /\
    Map_size (records {| records := []; currentId := 1 |})
      = Map_size
          (records
             (snd (run_service (rt := example_runtime)
                     (Create example_body 7) new_ProductStore))) - 1 /\
    currentId {| records := []; currentId := 1 |}
      = currentId
          (snd (run_service (rt := example_runtime)
                  (Create example_body 7) new_ProductStore)).
Proof.
  apply (@delete_then_not_found example_runtime
           (snd (run_service (rt := example_runtime)
                   (Create example_body 7) new_ProductStore))
           {| records := []; currentId := 1 |} (id_params 1)).
  - apply service_call, service_new.
  - vm_compute. reflexivity.
Defined.

(** X10.  An update that returns hands back the stored entity, never
    [undefined]: the cast of the store's answer is safe. *)
Theorem update_returns_entity {rt : Runtime} (s s' : ProductStore)
  (params body : jsval) (now : Z) (result : option ProductEntity) :
  productUpdate params body now s = (Returned result, s') ->
  exists updated,
    result = Some updated /\
    fst (productGet params s') = Returned updated.
Proof.
  intros Hupdate.
  destruct (productUpdate_returns _ _ _ _ Hupdate)
    as (k & updateData & existing & u & Hk & _ & _ & -> & _ & _ & _ & _
        & _ & ->).
  exists u. split; [reflexivity|].
  unfold productGet. rewrite Hk.
  unfold bind, productStore.getById. simpl.
  rewrite Map_get_set_same. reflexivity.
Qed.

Lemma update_returns_entity_witness :
  exists updated,
    Some (example_updated 1 true 0 5) = Some updated /\
    fst (productGet (rt := example_runtime) (id_params 1)
           (snd (productUpdate (rt := example_runtime) (id_params 1)
                   example_body 5 one_product)))
      = Returned updated.
Proof.
  apply (@update_returns_entity example_runtime one_product _ (id_params 1)
           example_body 5).
  vm_compute. reflexivity.
Defined.

(** Writing a record over one with the same [id] keeps the sequence of
    the stored ids. *)
Lemma Map_set_same_id (m : JsMap ProductRecord) (k : Z)
  (p p' : ProductRecord) :
  Map_get m k = Some p -> id p' = id p ->
  map id (Map_values (Map_set m k p')) = map id (Map_values m).
Proof.
  intros Hget Hid. induction m as [|[k0 p0] rest IH]; [discriminate|].
  simpl in *. destruct (Z.eqb_spec k0 k) as [E|E]; simpl.
  - injection Hget as ->. congruence.
  - f_equal. apply IH, Hget.
Qed.

(** X11.  An update that returns keeps the product's [id] and [dateCreated],
    stamps [dateModified] with the clock, copies the texts, the price, the
    category and the three flags from the body, and leaves every other
    product, the order of the products and the counter as they were. *)
Theorem update_reads_body {rt : Runtime} (s s' : ProductStore)
  (params body : jsval) (now : Z) (updated : ProductEntity) :
  service_reachable s ->
  productUpdate params body now s = (Returned (Some updated), s') ->
  exists k existing o,
    paramsSchema params = Some k /\
    fst (productStore.getById k s) = Returned (Some existing) /\
    body = JObject o /\
    id updated = k /\
    dateCreated updated = dateCreated existing /\
    dateModified updated = now /\
    reads_fields o updated /\
    prop o "featured" = JBool (featured updated) /\
    prop o "onSale" = JBool (onSale updated) /\
    prop o "available" = JBool (available updated) /\
    (forall k', k' <> k ->
       fst (productStore.getById k' s') = fst (productStore.getById k' s)) /\
    map id (Map_values (records s')) = map id (Map_values (records s)) /\
    currentId s' = currentId s.
Proof.
  intros Hs. apply service_reachable_invariant in Hs.
  destruct Hs as (_ & _ & Hfiled).
  unfold productUpdate.
  destruct (paramsSchema params) as [k|]; [|discriminate].
  destruct (updateSchema body) as [input|] eqn:Hbody; [|discriminate].
  destruct (updateSchema_inv _ Hbody) as (o & -> & Hread & _ & Hf & Hsale & Ha).
  unfold bind, productStore.getById, productStore.update, ret.
  destruct (Map_get (records s) k) as [existing|] eqn:Hget; [|discriminate].
  rewrite Hget. intros [= <- <-].
  pose proof (proj1 (Forall_forall _ _) Hfiled _ (Map_get_In _ _ Hget))
    as (Hid & _).
  exists k, existing, o. simpl in *.
  repeat (split; [first [reflexivity | assumption | apply Hread
                         | rewrite Hget; reflexivity]|]).
  split; [intros k' Hk; rewrite Map_get_set_other by exact Hk; reflexivity|].
  split; [|reflexivity].
  apply Map_set_same_id with (p := existing); [exact Hget | reflexivity].
Qed.

Lemma update_reads_body_witness :
  exists k existing o,
    paramsSchema (rt := example_runtime) (id_params 1) = Some k /\
    fst (productStore.getById k after_create) = Returned (Some existing) /\
    example_body = JObject o /\
    id (example_updated 1 true 7 9) = k /\
    dateCreated (example_updated 1 true 7 9) = dateCreated existing /\
    dateModified (example_updated 1 true 7 9) = 9 /\
    reads_fields o (example_updated 1 true 7 9) /\
    prop o "featured" = JBool (featured (example_updated 1 true 7 9)) /\
    prop o "onSale" = JBool (onSale (example_updated 1 true 7 9)) /\
    prop o "available" = JBool (available (example_updated 1 true 7 9)) /\
    (forall k', k' <> k ->
       fst (productStore.getById k'
              (snd (productUpdate (rt := example_runtime) (id_params 1)
                      example_body 9 after_create)))
       = fst (productStore.getById k' after_create)) /\
    map id
      (Map_values
         (records
            (snd (productUpdate (rt := example_runtime) (id_params 1)
                    example_body 9 after_create))))
    = map id (Map_values (records after_create)) /\
    currentId
      (snd (productUpdate (rt := example_runtime) (id_params 1)
              example_body 9 after_create))
    = currentId after_create.
Proof.
  apply (@update_reads_body example_runtime after_create
           (snd (productUpdate (rt := example_runtime) (id_params 1)
                   example_body 9 after_create))
           (id_params 1) example_body 9 (example_updated 1 true 7 9)).
  - apply service_call, service_new.
  - vm_compute. reflexivity.
Defined.

(** X12.  [productGet] by the identifier its parameter carries: an integer of at
    least 1 is looked up, and the answer is the stored product or
    NOT_FOUND; anything else, a parameter that is no object included, is
    refused with VALIDATION_ERROR.  The store is not touched. *)
Theorem get_by_identifier {rt : Runtime} (s : ProductStore) :
  (forall o k,
     number_is (ToNumber (prop o "id")) k -> 1 <= k ->
     productGet (JObject o) s
     = match Map_get (records s) k with
       | Some p => (Returned p, s)
       | None => (Thrown NOT_FOUND, s)
       end) /\
  (forall o,
     not_an_id (ToNumber (prop o "id")) ->
     productGet (JObject o) s = (Thrown VALIDATION_ERROR, s)) /\
  (forall params,
     (forall o, params <> JObject o) ->
     productGet params s = (Thrown VALIDATION_ERROR, s)).
Proof.
  split; [|split].
  - intros o k Hnum Hk. unfold productGet.
    rewrite (paramsSchema_number _ Hnum Hk).
    unfold bind, productStore.getById.
    destruct (Map_get (records s) k); reflexivity.
  - intros o Hbad. unfold productGet.
    rewrite (paramsSchema_not_an_id _ Hbad). reflexivity.
  - intros params Hshape. unfold productGet.
    destruct params; try reflexivity. destruct (Hshape props eq_refl).
Qed.

Lemma get_by_identifier_witness :
  productGet (rt := example_runtime) (JObject [("id", JString "1")])
    one_product
  = (Returned (example_record 1 false (Some 100%Q) 0), one_product) /\
  productGet (rt := example_runtime) (JObject [("id", JString "0")])
    one_product
  = (Thrown VALIDATION_ERROR, one_product).
Proof.
  split.
  - apply (proj1 (@get_by_identifier example_runtime one_product)
             [("id", JString "1")] 1); vm_compute; congruence.
  - apply (proj1 (proj2 (@get_by_identifier example_runtime one_product))
             [("id", JString "0")]).
    intros n Hn Hnum. change (0 == inject_Z n)%Q in Hnum.
    unfold Qeq in Hnum. simpl in Hnum. lia.
Defined.

(** X13.  An identifier that passes validation but is not stored: get and
    delete answer NOT_FOUND, and so does update once its body passes
    validation; an update with a body that fails validation answers
    VALIDATION_ERROR first.  In every case the store is not touched. *)
Theorem unknown_identifier {rt : Runtime} (s : ProductStore)
  (params : jsval) (k : Z) :
  paramsSchema params = Some k ->
  fst (productStore.exists_ k s) = Returned false ->
  productGet params s = (Thrown NOT_FOUND, s) /\
  productDelete params s = (Thrown NOT_FOUND, s) /\
  (forall body now,
     productUpdate params body now s
     = match updateSchema body with
       | Some _ => (Thrown NOT_FOUND, s)
       | None => (Thrown VALIDATION_ERROR, s)
       end).
Proof.
  intros Hk [= Hhas].
  assert (Hget : Map_get (records s) k = None).
  { unfold Map_has in Hhas. destruct (Map_get (records s) k);
      [discriminate | reflexivity]. }
  unfold productGet, productDelete, productUpdate. rewrite Hk.
  unfold bind, productStore.getById, productStore.exists_. simpl.
  rewrite Hget, Hhas. simpl. repeat split.
  intros body now. destruct (updateSchema body); [|reflexivity].
  rewrite Hget. reflexivity.
Qed.

Lemma unknown_identifier_witness :
  productGet (rt := example_runtime) (id_params 9) one_product
    = (Thrown NOT_FOUND, one_product) /\
  productDelete (rt := example_runtime) (id_params 9) one_product
    = (Thrown NOT_FOUND, one_product) /\
  (forall body now,
     productUpdate (rt := example_runtime) (id_params 9) body now one_product
     = match updateSchema (rt := example_runtime) body with
       | Some _ => (Thrown NOT_FOUND, one_product)
       | None => (Thrown VALIDATION_ERROR, one_product)
       end).
Proof.
  apply (@unknown_identifier example_runtime one_product (id_params 9) 9);
    vm_compute; reflexivity.
Defined.

(** ** The listing, item by item *)

Section ListingFacts.
Context {rt : Runtime}.

Lemma In_skipn (A : Type) (n : nat) (l : list A) (z : A) :
  In z (skipn n l) -> In z l.
Proof.
  revert l. induction n as [|n IH]; intros [|x rest]; simpl; try tauto.
  intros Hz. right. apply IH, Hz.
Qed.

Lemma In_Array_slice (A : Type) (l : list A) (start stop : Z) (z : A) :
  In z (Array_slice l start stop) -> In z l.
Proof.
  unfold Array_slice. intros Hz.
  exact (@In_skipn A _ _ _ (@In_firstn A (fun _ _ => True) _ _ _ Hz)).
Qed.

Lemma In_Array_sort (A : Type) (comparefn : A -> A -> Q) (l : list A)
  (z : A) :
  In z (Array_sort comparefn l) -> In z l.
Proof.
  induction l as [|x rest IH]; simpl; [tauto|].
  intros Hz. apply insert_sorted_In in Hz.
  destruct Hz as [->|Hz]; [left; reflexivity | right; apply IH, Hz].
Qed.

Lemma category_truthy (c : string) :
  existsb (String.eqb c) categories = true -> truthy_string c = true.
Proof.
  intros Hex. apply existsb_exists in Hex. destruct Hex as (x & Hx & E).
  apply String.eqb_eq in E. subst x. unfold categories in Hx. simpl in Hx.
  repeat (destruct Hx as [<-|Hx]; [reflexivity|]). destruct Hx.
Qed.

(** The three filter entries of a parsed list query. *)
Lemma listQuerySchema_filters (o : list (string * jsval))
  (filters : ListQueryInput) :
  listQuerySchema (JObject o) = Some filters ->
  (forall c, prop o "category" = JString c ->
     f_category filters = Some c /\ truthy_string c = true) /\
  (forall a, prop o "available" = JString a ->
     f_available filters = Some (String.eqb a "true")) /\
  (forall f, prop o "featured" = JString f ->
     f_featured filters = Some (String.eqb f "true")).
Proof.
  unfold listQuerySchema, and_then.
  destruct (z_optional (z_enum categories) _) as [c|] eqn:Ec; [|discriminate].
  destruct (z_optional (z_enum sortOrders) _) as [so|]; [|discriminate].
  destruct (pageSchema _) as [pg|]; [|discriminate].
  destruct (pageSizeSchema _) as [ps|]; [|discriminate].
  destruct (z_optional _ (prop o "available")) as [a|] eqn:Ea; [|discriminate].
  destruct (z_optional _ (prop o "featured")) as [f|] eqn:Ef; [|discriminate].
  intros [= <-]. simpl. split; [|split].
  - intros c' Hc. rewrite Hc in Ec. unfold z_optional in Ec.
    destruct (z_enum categories (JString c')) as [c0|] eqn:Hen; [|discriminate].
    injection Ec as <-. apply enum_inv in Hen. destruct Hen as [[= <-] Hin].
    split; [reflexivity | apply category_truthy, Hin].
  - intros a' Ha. rewrite Ha in Ea. injection Ea as <-. reflexivity.
  - intros f' Hf. rewrite Hf in Ef. injection Ef as <-. reflexivity.
Qed.

Lemma apply_filters_In (filters : ListQueryInput)
  (products : list ProductRecord) (p : ProductRecord) :
  In p (apply_filters filters products) ->
  In p products /\
  (forall c, f_category filters = Some c -> truthy_string c = true ->
             category p = c) /\
  (forall a, f_available filters = Some a -> available p = a) /\
  (forall f, f_featured filters = Some f -> featured p = f).
Proof.
  unfold apply_filters. intros Hin.
  destruct (f_featured filters) as [f|].
  - apply filter_In in Hin. destruct Hin as [Hin Hf].
    apply Bool.eqb_prop in Hf.
    destruct (f_available filters) as [a|].
    + apply filter_In in Hin. destruct Hin as [Hin Ha].
      apply Bool.eqb_prop in Ha.
      destruct (f_category filters) as [c|].
      * destruct (truthy_string c) eqn:Hc.
        -- apply filter_In in Hin. destruct Hin as [Hin Hcat].
           apply String.eqb_eq in Hcat.
           repeat split; try assumption; intros ? [= <-]; auto.
        -- repeat split; try assumption; intros ? [= <-]; auto; congruence.
      * repeat split; try assumption; intros ? [= <-]; auto; discriminate.
    + destruct (f_category filters) as [c|].
      * destruct (truthy_string c) eqn:Hc.
        -- apply filter_In in Hin. destruct Hin as [Hin Hcat].
           apply String.eqb_eq in Hcat.
           repeat split; try assumption; try discriminate;
             intros ? [= <-]; auto.
        -- repeat split; try assumption; try discriminate;
             intros ? [= <-]; auto; congruence.
      * repeat split; try assumption; try discriminate;
          intros ? [= <-]; auto.
  - destruct (f_available filters) as [a|].
    + apply filter_In in Hin. destruct Hin as [Hin Ha].
      apply Bool.eqb_prop in Ha.
      destruct (f_category filters) as [c|].
      * destruct (truthy_string c) eqn:Hc.
        -- apply filter_In in Hin. destruct Hin as [Hin Hcat].
           apply String.eqb_eq in Hcat.
           repeat split; try assumption; try discriminate;
             intros ? [= <-]; auto.
        -- repeat split; try assumption; try discriminate;
             intros ? [= <-]; auto; congruence.
      * repeat split; try assumption; try discriminate;
          intros ? [= <-]; auto.
    + destruct (f_category filters) as [c|].
      * destruct (truthy_string c) eqn:Hc.
        -- apply filter_In in Hin. destruct Hin as [Hin Hcat].
           apply String.eqb_eq in Hcat.
           repeat split; try assumption; try discriminate;
             intros ? [= <-]; auto.
        -- repeat split; try assumption; try discriminate;
             intros ? [= <-]; auto; congruence.
      * repeat split; try assumption; discriminate.
Qed.
End ListingFacts.

(** X14.  Every item of a returned page is the projection of a stored product
    that passes each filter the query carries: its category is the one
    asked for, and its [available] and [featured] flags are true when the
    query says ["true"] and false when it says any other string. *)
Theorem list_items_match_filters {rt : Runtime} (s s' : ProductStore)
  (o : list (string * jsval)) (response : ProductListResponse)
  (item : ProductListItem) :
  productList (JObject o) s = (Returned response, s') ->
  In item (items response) ->
  exists p,
    In p (Map_values (records s)) /\ item = toListItem p /\ matches o p.
Proof.
  intros Hrun Hin.
  destruct (productList_returns _ _ Hrun) as [filters Hq].
  rewrite (productList_parsed _ s Hq) in Hrun.
  injection Hrun as <- _. simpl in Hin.
  apply in_map_iff in Hin. destruct Hin as (p & <- & Hin).
  apply In_Array_slice, In_Array_sort, apply_filters_In in Hin.
  destruct Hin as (Hstored & Hcat & Hav & Hfeat).
  destruct (listQuerySchema_filters _ Hq) as (Qcat & Qav & Qfeat).
  exists p. split; [exact Hstored|]. split; [reflexivity|].
  repeat split.
  - intros c Hc. destruct (Qcat c Hc) as [E Ht]. apply Hcat; assumption.
  - intros a Ha. apply Hav, Qav, Ha.
  - intros f Hf. apply Hfeat, Qfeat, Hf.
Qed.

Lemma list_items_match_filters_witness :
  exists p,
    In p (Map_values (records two_products)) /\
    toListItem (example_record 1 true None 1000) = toListItem p /\
    matches [("featured", JString "true")] p.
Proof.
  apply (@list_items_match_filters example_runtime two_products two_products
           [("featured", JString "true")]
           {| items := [toListItem (example_record 1 true None 1000)];
              pagination :=
                {| page := 1; pageSize := 12; total := 1; totalPages := 1;
                   hasNext := false; hasPrevious := false |} |}).
  - vm_compute. reflexivity.
  - left. reflexivity.
Defined.

(** X15.  In a returned page [hasNext] is true exactly when records lie beyond
    this page, [hasPrevious] exactly when the page is not the first, and
    the page is empty exactly when it starts at or past the total. *)
Theorem list_navigation_flags {rt : Runtime} (s s' : ProductStore)
  (query : jsval) (response : ProductListResponse) :
  productList query s = (Returned response, s') ->
  let meta := pagination response in
  (hasNext meta = true <-> page meta * pageSize meta < total meta) /\
  (hasPrevious meta = true <-> 1 < page meta) /\
  (items response = [] <-> total meta <= (page meta - 1) * pageSize meta).
Proof.
  intros Hrun.
  destruct (productList_returns _ _ Hrun) as [filters Hq].
  pose proof (listQuerySchema_bounds _ Hq) as [Hpg Hps].
  apply pageSizes_pos in Hps.
  rewrite (productList_parsed _ s Hq) in Hrun.
  injection Hrun as <- _. simpl.
  set (n := Z.of_nat (List.length (Array_sort _ _))).
  pose proof (Math_ceil_div_spec n Hps) as Hceil.
  split; [|split].
  - rewrite Z.ltb_lt. nia.
  - rewrite Z.gtb_ltb, Z.ltb_lt. reflexivity.
  - rewrite <- length_zero_iff_nil, length_map.
    assert (Hlen := @Array_slice_length ProductRecord
                      (Array_sort
                         (compareProducts (or_string (f_sort filters) "newest"))
                         (apply_filters filters (Map_values (records s))))
                      ((f_page filters - 1) * f_pageSize filters)
                      ((f_page filters - 1) * f_pageSize filters
                       + f_pageSize filters)).
    fold n in Hlen. specialize (Hlen ltac:(nia)). split; intros H0.
    + rewrite H0 in Hlen. simpl in Hlen. lia.
    + apply Nat2Z.inj. rewrite Hlen. simpl. lia.
Qed.

Lemma list_navigation_flags_witness :
  (false = true <-> 1 * 12 < 2) /\
  (false = true <-> 1 < 1) /\
  ([ toListItem (example_record 1 true None 1000);
     toListItem (example_record 2 false (Some 100%Q) 2000) ] = []
   <-> 2 <= (1 - 1) * 12).
Proof.
  apply (@list_navigation_flags example_runtime two_products two_products
           (sort_query "price-asc")
           {| items :=
                [ toListItem (example_record 1 true None 1000);
                  toListItem (example_record 2 false (Some 100%Q) 2000) ];
              pagination :=
                {| page := 1; pageSize := 12; total := 2; totalPages := 1;
                   hasNext := false; hasPrevious := false |} |}).
  vm_compute. reflexivity.
Defined.

(** ** The order of the listing *)

Section SortFacts.
Variable A : Type.
Variable comparefn : A -> A -> Q.
Variable R : A -> A -> Prop.

Hypothesis R_transitive : forall a b c, R a b -> R b c -> R a c.
Hypothesis comparefn_decides :
  forall a b, if Qle_bool (comparefn a b) 0 then R a b else R b a.

Lemma insert_sorted_sorted (x : A) (l : list A) :
  StronglySorted R l -> StronglySorted R (insert_sorted comparefn x l).
Proof.
  induction 1 as [|y rest Hrest IH Hy]; simpl.
  - repeat constructor.
  - pose proof (comparefn_decides x y) as Hxy.
    destruct (Qle_bool (comparefn x y) 0).
    + constructor; [constructor; assumption|].
      constructor; [exact Hxy|].
      rewrite Forall_forall in *. intros z Hz.
      apply R_transitive with (b := y); [exact Hxy | apply Hy, Hz].
    + constructor; [exact IH|].
      rewrite Forall_forall in *. intros z Hz.
      destruct (@insert_sorted_In A comparefn x z rest Hz) as [->|Hin];
        [exact Hxy | exact (Hy z Hin)].
Qed.

Lemma Array_sort_sorted (l : list A) :
  StronglySorted R (Array_sort comparefn l).
Proof.
  induction l as [|x rest IH]; simpl.
  - constructor.
  - apply insert_sorted_sorted, IH.
Qed.
End SortFacts.

Section OrderFacts.
Context {rt : Runtime}.

Lemma price_sorted_transitive (le : Q -> Q -> Prop) :
  (forall x y z, le x y -> le y z -> le x z) ->
  forall a b c,
    price_sorted le a b -> price_sorted le b c -> price_sorted le a c.
Proof.
  intros Htrans [fa [pa|]] [fb [pb|]] [fc [pc|]];
    unfold price_sorted, price_rank; destruct fa, fb, fc; simpl;
    intros [Hab|[Hab Lab]] [Hbc|[Hbc Lbc]];
    try lia; try (left; lia); right; split; eauto.
Qed.

Lemma Qle_bool_minus (x y : Q) :
  if Qle_bool (x - y) 0 then (x <= y)%Q else (y <= x)%Q.
Proof.
  destruct (Qle_bool (x - y) 0) eqn:E.
  - apply Qle_bool_iff in E. lra.
  - destruct (Qlt_le_dec y x) as [Hlt|Hle]; [lra|].
    assert (Hb : Qle_bool (x - y) 0 = true) by (apply Qle_bool_iff; lra).
    congruence.
Qed.

Lemma compareProducts_price_asc (a b : ProductRecord) :
  if Qle_bool (compareProducts "price-asc" a b) 0
  then price_sorted Qle (featured a, price a) (featured b, price b)
  else price_sorted Qle (featured b, price b) (featured a, price a).
Proof.
  unfold compareProducts, price_sorted, price_rank.
  destruct (featured a), (featured b), (price a) as [pa|],
    (price b) as [pb|]; simpl;
    try (left; lia); try (right; split; [reflexivity | exact I]);
    pose proof (Qle_bool_minus pa pb) as Hm;
    destruct (Qle_bool (pa - pb) 0); right; split; auto.
Qed.

Lemma compareProducts_price_desc (a b : ProductRecord) :
  if Qle_bool (compareProducts "price-desc" a b) 0
  then price_sorted (fun x y => (y <= x)%Q)
         (featured a, price a) (featured b, price b)
  else price_sorted (fun x y => (y <= x)%Q)
         (featured b, price b) (featured a, price a).
Proof.
  unfold compareProducts, price_sorted, price_rank.
  destruct (featured a), (featured b), (price a) as [pa|],
    (price b) as [pb|]; simpl;
    try (left; lia); try (right; split; [reflexivity | exact I]);
    pose proof (Qle_bool_minus pb pa) as Hm;
    destruct (Qle_bool (pb - pa) 0); right; split; auto.
Qed.




(** The sort order that a parsed query carries. *)
Lemma listQuerySchema_sort (o : list (string * jsval))
  (filters : ListQueryInput) :
  listQuerySchema (JObject o) = Some filters ->
  (prop o "sort" = JUndefined -> f_sort filters = None) /\
  (forall sortOrder, prop o "sort" = JString sortOrder ->
                     f_sort filters = Some sortOrder /\
                     truthy_string sortOrder = true).
Proof.
  intros Hq. destruct (@listQuerySchema_inv rt _ _ Hq)
    as (o' & [= <-] & _ & Hso & _).
  split.
  - intros Hu. rewrite Hu in Hso. injection Hso as <-. reflexivity.
  - intros sortOrder Hs. rewrite Hs in Hso. unfold z_optional in Hso.
    destruct (z_enum sortOrders (JString sortOrder)) as [c|] eqn:Hen;
      [|discriminate].
    injection Hso as <-. apply enum_inv in Hen.
    destruct Hen as [[= <-] Hin]. split; [reflexivity|].
    apply existsb_exists in Hin. destruct Hin as (x & Hx & E).
    apply String.eqb_eq in E. subst x. unfold sortOrders in Hx. simpl in Hx.
    repeat (destruct Hx as [<-|Hx]; [reflexivity|]). destruct Hx.
Qed.
End OrderFacts.

(** The records behind a returned page: stored records, in an order that
    the comparator of the query decides. *)
Lemma productList_sorted {rt : Runtime} (R : ProductRecord -> ProductRecord
  -> Prop) (query : jsval) (s s' : ProductStore) (filters : ListQueryInput)
  (response : ProductListResponse) :
  listQuerySchema query = Some filters ->
  (forall a b c, R a b -> R b c -> R a c) ->
  (forall a b,
     if Qle_bool
          (compareProducts (or_string (f_sort filters) "newest") a b) 0
     then R a b else R b a) ->
  productList query s = (Returned response, s') ->
  exists products,
    items response = map toListItem products /\
    (forall p, In p products -> In p (Map_values (records s))) /\
    StronglySorted R products.
Proof.
  intros Hq Htrans Hdec Hrun.
  rewrite (productList_parsed _ s Hq) in Hrun.
  injection Hrun as <- _. simpl. eexists. split; [reflexivity|]. split.
  - intros p Hin.
    apply In_Array_slice, In_Array_sort, apply_filters_In in Hin.
    apply Hin.
  - apply StronglySorted_slice, Array_sort_sorted; assumption.
Qed.

(** X16.  Sorted by price, the items of a page that agree on [featured] and have
    a price come in ascending price for [price-asc] and in descending
    price for [price-desc]. *)
Theorem list_price_order {rt : Runtime} (s s' : ProductStore)
  (o : list (string * jsval)) (sortOrder : string)
  (response : ProductListResponse) (i j : nat) (x y : ProductListItem)
  (px py : Q) :
  prop o "sort" = JString sortOrder ->
  productList (JObject o) s = (Returned response, s') ->
  (i < j)%nat ->
  nth_error (items response) i = Some x ->
  nth_error (items response) j = Some y ->
  item_featured x = item_featured y ->
  item_price x = Some px -> item_price y = Some py ->
  (sortOrder = "price-asc" -> (px <= py)%Q) /\
  (sortOrder = "price-desc" -> (py <= px)%Q).
Proof.
  intros Hsort Hrun Hij Hi Hj Hfeat Hx Hy.
  destruct (productList_returns _ _ Hrun) as [filters Hq].
  destruct (listQuerySchema_sort _ Hq) as [_ Hso].
  destruct (Hso sortOrder Hsort) as [Hf Ht].
  assert (Hor : or_string (f_sort filters) "newest" = sortOrder)
    by (rewrite Hf; unfold or_string; rewrite Ht; reflexivity).
  assert (Hconclude :
            forall le : Q -> Q -> Prop,
              (forall a b c, le a b -> le b c -> le a c) ->
              (forall a b,
                 if Qle_bool (compareProducts sortOrder a b) 0
                 then price_sorted le (featured a, price a)
                        (featured b, price b)
                 else price_sorted le (featured b, price b)
                        (featured a, price a)) ->
              le px py).
  { intros le Htrans Hdec.
    destruct (@productList_sorted rt
                (fun a b => price_sorted le (featured a, price a)
                              (featured b, price b))
                (JObject o) s s' filters response Hq)
      as (products & Hitems & _ & Hsorted).
    - intros a b c. apply price_sorted_transitive, Htrans.
    - rewrite Hor. exact Hdec.
    - exact Hrun.
    - rewrite Hitems in Hi, Hj.
      rewrite nth_error_map in Hi, Hj.
      destruct (nth_error products i) as [a|] eqn:Ha; [|discriminate].
      destruct (nth_error products j) as [b|] eqn:Hb; [|discriminate].
      injection Hi as <-. injection Hj as <-. simpl in *.
      pose proof (StronglySorted_nth Hsorted Hij Ha Hb) as Hr.
      unfold price_sorted in Hr. simpl in Hr.
      rewrite Hfeat, Hx, Hy in Hr. unfold price_rank in Hr.
      destruct Hr as [Hr|[_ Hr]]; [lia | exact Hr]. }
  split; intros ->.
  - apply (Hconclude Qle); [intros a b c; apply Qle_trans|].
    apply compareProducts_price_asc.
  - apply (Hconclude (fun a b => (b <= a)%Q)).
    + intros a b c Hab Hbc. eapply Qle_trans; eassumption.
    + apply compareProducts_price_desc.
Qed.

Lemma list_price_order_witness :
  ("price-asc" = "price-asc" -> (100 <= 250)%Q) /\
  ("price-asc" = "price-desc" -> (250 <= 100)%Q).
Proof.
  apply (@list_price_order example_runtime
           {| records := [ (1, example_record 1 false (Some 250%Q) 0);
                           (2, example_record 2 false (Some 100%Q) 0) ];
              currentId := 2 |}
           {| records := [ (1, example_record 1 false (Some 250%Q) 0);
                           (2, example_record 2 false (Some 100%Q) 0) ];
              currentId := 2 |}
           [("sort", JString "price-asc")] "price-asc"
           {| items :=
                [ toListItem (example_record 2 false (Some 100%Q) 0);
                  toListItem (example_record 1 false (Some 250%Q) 0) ];
              pagination :=
                {| page := 1; pageSize := 12; total := 2; totalPages := 1;
                   hasNext := false; hasPrevious := false |} |}
           0%nat 1%nat
           (toListItem (example_record 2 false (Some 100%Q) 0))
           (toListItem (example_record 1 false (Some 250%Q) 0)));
    try reflexivity.
  lia.
Defined.



(** ** Walking the pages *)

Section PageFacts.
Variable A : Type.




End PageFacts.

Section PageQueries.
Context {rt : Runtime}.



End PageQueries.



(** * Properties of the client *)

(** ** The catalog state *)

(** X19.  Changing the page size keeps the first item of the current page on
    the new page: the new page is at least 1 and its range of indexes
    contains the index the old page started at.  If that index lies below
    the total, the new page is one of the pages the server counts. *)
Theorem setPageSize_keeps_first_item (state : catalogStore.CatalogState)
  (newPageSize : Z) :
  1 <= catalogStore.page state ->
  0 < catalogStore.pageSize state ->
  0 < newPageSize ->
  let state' := catalogStore.setPageSize newPageSize state in
  let firstItemIndex :=
    (catalogStore.page state - 1) * catalogStore.pageSize state in
  catalogStore.pageSize state' = newPageSize /\
  1 <= catalogStore.page state' /\
  (catalogStore.page state' - 1) * newPageSize <= firstItemIndex
    < catalogStore.page state' * newPageSize /\
  (forall total,
     firstItemIndex < total ->
     catalogStore.page state' <= Math_ceil_div total newPageSize).
Proof.
  intros Hpage Hsize Hnew. simpl. rewrite Math_floor_div_Z.
  set (first := (catalogStore.page state - 1) * catalogStore.pageSize state).
  assert (Hfirst : 0 <= first) by (unfold first; nia).
  pose proof (Z.div_mod first newPageSize ltac:(lia)) as Hdm.
  pose proof (Z.mod_pos_bound first newPageSize Hnew) as Hm.
  assert (Hq : 0 <= first / newPageSize) by (apply Z.div_pos; lia).
  split; [reflexivity|]. split; [lia|]. split; [nia|].
  intros total Htotal.
  pose proof (Math_ceil_div_spec total Hnew) as Hceil. nia.
Qed.

Lemma setPageSize_keeps_first_item_witness :
  catalogStore.pageSize
    (catalogStore.setPageSize 24
       (catalogStore.setPage 3 catalogStore.initialState)) = 24 /\
  1 <= catalogStore.page
         (catalogStore.setPageSize 24
            (catalogStore.setPage 3 catalogStore.initialState)) /\
  (catalogStore.page
     (catalogStore.setPageSize 24
        (catalogStore.setPage 3 catalogStore.initialState)) - 1) * 24
    <= (3 - 1) * 12
    < catalogStore.page
        (catalogStore.setPageSize 24
           (catalogStore.setPage 3 catalogStore.initialState)) * 24 /\
  (forall total,
     (3 - 1) * 12 < total ->
     catalogStore.page
       (catalogStore.setPageSize 24
          (catalogStore.setPage 3 catalogStore.initialState))
     <= Math_ceil_div total 24).
Proof.
  apply (@setPageSize_keeps_first_item
           (catalogStore.setPage 3 catalogStore.initialState) 24);
    simpl; lia.
Defined.

(** X20.  From the initial state, through any actions whose page arguments are
    at least 1 and whose page-size arguments are above 0, the page stays at
    least 1 and the page size above 0. *)
Theorem catalog_page_stays_positive (actions : list catalogStore.Action) :
  Forall catalogStore.in_range actions ->
  let state := fold_left catalogStore.dispatch actions
                 catalogStore.initialState in
  1 <= catalogStore.page state /\ 0 < catalogStore.pageSize state.
Proof.
  intros Hactions. simpl.
  assert (Hgen : forall state,
             1 <= catalogStore.page state /\
             0 < catalogStore.pageSize state ->
             1 <= catalogStore.page
                    (fold_left catalogStore.dispatch actions state) /\
             0 < catalogStore.pageSize
                   (fold_left catalogStore.dispatch actions state)).
  { induction Hactions as [|action rest Haction Hrest IH];
      intros state [Hpage Hsize]; [simpl; auto|].
    simpl. apply IH.
    destruct action as [f|so|p|ps|vm|q| |]; simpl in *; try lia.
    - rewrite Math_floor_div_Z. split; [|lia].
      assert (0 <= (catalogStore.page state - 1)
                   * catalogStore.pageSize state / ps)
        by (apply Z.div_pos; nia).
      lia.
    - destruct vm; lia. }
  apply Hgen. simpl. lia.
Qed.

Lemma catalog_page_stays_positive_witness :
  1 <= catalogStore.page
         (fold_left catalogStore.dispatch
            [catalogStore.SetPage 4; catalogStore.SetPageSize 48]
            catalogStore.initialState) /\
  0 < catalogStore.pageSize
        (fold_left catalogStore.dispatch
           [catalogStore.SetPage 4; catalogStore.SetPageSize 48]
           catalogStore.initialState).
Proof.
  apply (@catalog_page_stays_positive
           [catalogStore.SetPage 4; catalogStore.SetPageSize 48]).
  repeat constructor; simpl; lia.
Defined.

(** ** The client against the list schema *)

(** X21.  The list view sets the page size to 8, and the list operation refuses
    a query whose [pageSize] carries that number: 8 is none of the sizes
    the schema accepts. *)
Theorem list_view_page_size_refused {rt : Runtime}
  (state : catalogStore.CatalogState) (o : list (string * jsval))
  (s : ProductStore) :
  number_is (ToNumber (prop o "pageSize"))
    (catalogStore.pageSize
       (catalogStore.setViewMode catalogStore.list_ state)) ->
  productList (JObject o) s = (Thrown VALIDATION_ERROR, s).
Proof.
  simpl. intros Hnum. unfold productList.
  rewrite listQuerySchema_bad; [reflexivity|].
  right. left. split.
  - intros Hu. rewrite Hu in Hnum. exact Hnum.
  - intros n Hn Hn'.
    destruct (ToNumber (prop o "pageSize")) as [|q]; [exact Hnum|].
    simpl in Hnum, Hn'. rewrite Hnum in Hn'.
    unfold Qeq in Hn'. simpl in Hn, Hn'. lia.
Qed.

Lemma list_view_page_size_refused_witness :
  productList (rt := example_runtime) (JObject [("pageSize", JString "8")])
    two_products
  = (Thrown VALIDATION_ERROR, two_products).
Proof.
  apply (@list_view_page_size_refused example_runtime
           catalogStore.initialState [("pageSize", JString "8")]).
  vm_compute. reflexivity.
Defined.

(** X22.  Every size the page-size selector offers passes the [pageSize] entry
    of the list schema. *)
Theorem offered_page_sizes_accepted {rt : Runtime} (v : jsval) (n : Z) :
  In n PAGE_SIZE_OPTIONS ->
  number_is (ToNumber v) n ->
  pageSizeSchema v = Some n.
Proof.
  intros Hn Hnum. unfold pageSizeSchema.
  assert (Hv : v <> JUndefined) by (intros ->; exact Hnum).
  rewrite optional_default_present by exact Hv.
  unfold z_refine, z_transform, z_coerce_number, z_number.
  destruct (ToNumber v) as [|q]; [destruct Hnum|].
  pose proof (@number_is_floor q n Hnum) as Hfloor. simpl in Hnum.
  assert (Hint : z_int q = true).
  { unfold z_int, isInteger. apply Qeq_bool_iff. rewrite Hfloor. exact Hnum. }
  rewrite Hint. cbn [option_map]. rewrite Hfloor.
  assert (Hex : existsb (Z.eqb n) pageSizes = true).
  { apply existsb_exists. exists n. split; [exact Hn | apply Z.eqb_refl]. }
  rewrite Hex. reflexivity.
Qed.

Lemma offered_page_sizes_accepted_witness :
  pageSizeSchema (rt := example_runtime) (JString "36") = Some 36.
Proof.
  apply (@offered_page_sizes_accepted example_runtime (JString "36") 36).
  - simpl. auto.
  - vm_compute. reflexivity.
Defined.

(** X23.  On a page that has items, the range the pagination control announces
    counts exactly the items of the page, starts at 1 or above and ends at
    the total or below. *)
Theorem shown_range_counts_items {rt : Runtime} (s s' : ProductStore)
  (query : jsval) (response : ProductListResponse) :
  productList query s = (Returned response, s') ->
  items response <> [] ->
  let meta := pagination response in
  shownTo meta - shownFrom meta + 1
    = Z.of_nat (List.length (items response)) /\
  1 <= shownFrom meta <= shownTo meta /\
  shownTo meta <= total meta.
Proof.
  intros Hrun Hitems.
  destruct (productList_returns _ _ Hrun) as [filters Hq].
  pose proof (listQuerySchema_bounds _ Hq) as [Hpg Hps].
  apply pageSizes_pos in Hps.
  rewrite (productList_parsed _ s Hq) in Hrun.
  injection Hrun as <- _. simpl in *. unfold shownTo, shownFrom. simpl.
  rewrite length_map in *.
  set (sorted := Array_sort _ _) in *.
  pose proof (@Array_slice_length ProductRecord sorted
                ((f_page filters - 1) * f_pageSize filters)
                ((f_page filters - 1) * f_pageSize filters
                 + f_pageSize filters) ltac:(nia)) as Hlen.
  assert (Hpos : (0 < List.length
                        (Array_slice sorted
                           ((f_page filters - 1) * f_pageSize filters)
                           ((f_page filters - 1) * f_pageSize filters
                            + f_pageSize filters)))%nat).
  { destruct (Array_slice sorted _ _); [destruct Hitems; reflexivity|].
    simpl. lia. }
  assert (Hmul : f_page filters * f_pageSize filters
                 = (f_page filters - 1) * f_pageSize filters
                   + f_pageSize filters) by ring.
  assert (Hoff : 0 <= (f_page filters - 1) * f_pageSize filters) by nia.
  rewrite Hmul. lia.
Qed.

Lemma shown_range_counts_items_witness :
  shownTo {| page := 1; pageSize := 12; total := 2; totalPages := 1;
             hasNext := false; hasPrevious := false |}
  - shownFrom {| page := 1; pageSize := 12; total := 2; totalPages := 1;
                 hasNext := false; hasPrevious := false |} + 1
    = 2 /\
  1 <= shownFrom {| page := 1; pageSize := 12; total := 2; totalPages := 1;
                    hasNext := false; hasPrevious := false |}
    <= shownTo {| page := 1; pageSize := 12; total := 2; totalPages := 1;
                  hasNext := false; hasPrevious := false |} /\
  shownTo {| page := 1; pageSize := 12; total := 2; totalPages := 1;
             hasNext := false; hasPrevious := false |} <= 2.
Proof.
  apply (@shown_range_counts_items example_runtime two_products two_products
           (sort_query "price-asc")
           {| items :=
                [ toListItem (example_record 1 true None 1000);
                  toListItem (example_record 2 false (Some 100%Q) 2000) ];
              pagination :=
                {| page := 1; pageSize := 12; total := 2; totalPages := 1;
                   hasNext := false; hasPrevious := false |} |}).
  - vm_compute. reflexivity.
  - discriminate.
Defined.

(** ** The page links *)

Lemma for_range_nil (start stop : Z) :
  stop < start -> for_range start stop = [].
Proof.
  intros Hlt. unfold for_range.
  replace (Z.to_nat (stop - start + 1)) with 0%nat by lia. reflexivity.
Qed.

Lemma for_range_cons (start stop : Z) :
  start <= stop -> for_range start stop = start :: for_range (start + 1) stop.
Proof.
  intros Hle. unfold for_range.
  replace (Z.to_nat (stop - start + 1))
    with (S (Z.to_nat (stop - (start + 1) + 1))) by lia.
  cbn [seq map]. f_equal; [lia|].
  rewrite <- seq_shift, map_map. apply map_ext. intros i. lia.
Qed.

(** The seven shapes of the links when there are more than five pages. *)
Lemma getPageNumbers_shape (page totalPages : Z) :
  1 <= page <= totalPages -> 5 < totalPages ->
  let N := PageNumber in
  (page = 1 /\
   getPageNumbers page totalPages = [N 1; N 2; ellipsis; N totalPages]) \/
  (page = 2 /\
   getPageNumbers page totalPages
   = [N 1; N 2; N 3; ellipsis; N totalPages]) \/
  (page = 3 /\
   getPageNumbers page totalPages
   = [N 1; N 2; N 3; N 4; ellipsis; N totalPages]) \/
  (4 <= page <= totalPages - 3 /\
   getPageNumbers page totalPages
   = [N 1; ellipsis; N (page - 1); N page; N (page + 1); ellipsis;
      N totalPages]) \/
  (4 <= page /\ page = totalPages - 2 /\
   getPageNumbers page totalPages
   = [N 1; ellipsis; N (page - 1); N page; N (page + 1); N totalPages]) \/
  (page = totalPages - 1 /\
   getPageNumbers page totalPages
   = [N 1; ellipsis; N (page - 1); N page; N totalPages]) \/
  (page = totalPages /\
   getPageNumbers page totalPages
   = [N 1; ellipsis; N (page - 1); N totalPages]).
Proof.
  intros Hpage Hmany N. unfold getPageNumbers.
  destruct (Z.leb_spec totalPages 5); [lia|].
  assert (Hcases : page = 1 \/ page = 2 \/ page = 3 \/
                   4 <= page <= totalPages - 3 \/
                   (4 <= page /\ page = totalPages - 2) \/
                   page = totalPages - 1 \/ page = totalPages) by lia.
  destruct Hcases as [Hc|[Hc|[Hc|[Hc|[Hc|[Hc|Hc]]]]]];
    [ left | right; left | do 2 right; left | do 3 right; left
    | do 4 right; left | do 5 right; left | do 6 right ];
    (repeat split; try lia);
    destruct (Z.gtb_spec page 3); try lia;
    destruct (Z.ltb_spec page (totalPages - 2)); try lia;
    destruct (Z.max_spec 2 (page - 1)) as [[? ->]|[? ->]]; try lia;
    destruct (Z.min_spec (totalPages - 1) (page + 1)) as [[? ->]|[? ->]];
    try lia;
    repeat (rewrite for_range_cons by lia);
    rewrite for_range_nil by lia;
    cbn [map app]; unfold N;
    repeat (f_equal; try lia).
Qed.

(** X24.  The numbered links run upwards without repetition, stay between 1 and
    the last page, always include the first page, the current page and the
    last page, and are never more than five. *)
Theorem page_links_numbers (page totalPages : Z) :
  1 <= page <= totalPages ->
  let numbers := numbered (getPageNumbers page totalPages) in
  StronglySorted Z.lt numbers /\
  Forall (fun n => 1 <= n <= totalPages) numbers /\
  In 1 numbers /\ In page numbers /\ In totalPages numbers /\
  (List.length numbers <= 5)%nat.
Proof.
  intros Hpage. destruct (Z.le_gt_cases totalPages 5) as [Hfew|Hmany].
  - assert (Hcases : totalPages = 1 \/ totalPages = 2 \/ totalPages = 3 \/
                     totalPages = 4 \/ totalPages = 5) by lia.
    destruct Hcases as [->|[->|[->|[->| ->]]]]; cbv zeta;
      cbn [getPageNumbers];
      repeat split; try (simpl; lia);
      repeat first [lia | constructor].
  - destruct (getPageNumbers_shape Hpage Hmany)
      as [[Hc ->]|[[Hc ->]|[[Hc ->]|[[Hc ->]|[(Hc & Hc' & ->)|[[Hc ->]
         |[Hc ->]]]]]]];
      cbn [numbered]; repeat split; try (simpl; lia);
      repeat first [lia | constructor].
Qed.

Lemma page_links_numbers_witness :
  StronglySorted Z.lt (numbered (getPageNumbers 7 20)) /\
  Forall (fun n => 1 <= n <= 20) (numbered (getPageNumbers 7 20)) /\
  In 1 (numbered (getPageNumbers 7 20)) /\
  In 7 (numbered (getPageNumbers 7 20)) /\
  In 20 (numbered (getPageNumbers 7 20)) /\
  (List.length (numbered (getPageNumbers 7 20)) <= 5)%nat.
Proof. apply (@page_links_numbers 7 20). lia. Defined.

Lemma getPageNumbers_few (page totalPages : Z) :
  totalPages <= 5 ->
  getPageNumbers page totalPages = map PageNumber (for_range 1 totalPages).
Proof.
  intros Hfew. unfold getPageNumbers.
  destruct (Z.leb_spec totalPages 5); [reflexivity | lia].
Qed.

Ltac few_pages :=
  match goal with
  | |- context [getPageNumbers ?page ?n] =>
      rewrite (@getPageNumbers_few page n) by lia;
      let l := eval vm_compute in (map PageNumber (for_range 1 n)) in
      change (map PageNumber (for_range 1 n)) with l
  end.

(** X25.  The links start with page 1; two numbers side by side are consecutive
    pages; an ellipsis stands only between two numbers, and then at least
    one page lies between them: no page is skipped without an ellipsis and
    no ellipsis is shown where nothing is skipped. *)
Theorem page_links_gaps (page totalPages : Z) :
  1 <= page <= totalPages ->
  let entries := getPageNumbers page totalPages in
  nth_error entries 0 = Some (PageNumber 1) /\
  (forall i a b,
     nth_error entries i = Some (PageNumber a) ->
     nth_error entries (S i) = Some (PageNumber b) ->
     b = a + 1) /\
  (forall i,
     nth_error entries i = Some ellipsis ->
     exists j a b,
       i = S j /\
       nth_error entries j = Some (PageNumber a) /\
       nth_error entries (S i) = Some (PageNumber b) /\
       a + 1 < b).
Proof.
  intros Hpage. destruct (Z.le_gt_cases totalPages 5) as [Hfew|Hmany].
  - assert (Hcases : totalPages = 1 \/ totalPages = 2 \/ totalPages = 3 \/
                     totalPages = 4 \/ totalPages = 5) by lia.
    destruct Hcases as [->|[->|[->|[->| ->]]]]; cbv zeta; few_pages;
      (split; [reflexivity|]); split;
      intros i;
      repeat (destruct i as [|i]; try (intros; discriminate));
      cbn; intros;
      repeat match goal with
             | H : Some _ = Some _ |- _ => injection H as H
             | H : PageNumber _ = PageNumber _ |- _ => injection H as H
             end;
      try discriminate; lia.
  - destruct (getPageNumbers_shape Hpage Hmany)
      as [[Hc ->]|[[Hc ->]|[[Hc ->]|[[Hc ->]|[(Hc & Hc' & ->)|[[Hc ->]
         |[Hc ->]]]]]]];
      (split; [reflexivity|]); split;
      intros i;
      repeat (destruct i as [|i]; try (cbn; intros; discriminate));
      cbn; intros;
      repeat match goal with
             | H : Some _ = Some _ |- _ => injection H as H
             | H : PageNumber _ = PageNumber _ |- _ => injection H as H
             end;
      try discriminate; try lia;
      try (eexists; eexists; eexists;
           split; [reflexivity|]; split; [reflexivity|];
           split; [reflexivity|]; lia).
Qed.

Lemma page_links_gaps_witness :
  nth_error (getPageNumbers 7 20) 0 = Some (PageNumber 1) /\
  (forall i a b,
     nth_error (getPageNumbers 7 20) i = Some (PageNumber a) ->
     nth_error (getPageNumbers 7 20) (S i) = Some (PageNumber b) ->
     b = a + 1) /\
  (forall i,
     nth_error (getPageNumbers 7 20) i = Some ellipsis ->
     exists j a b,
       i = S j /\
       nth_error (getPageNumbers 7 20) j = Some (PageNumber a) /\
       nth_error (getPageNumbers 7 20) (S i) = Some (PageNumber b) /\
       a + 1 < b).
Proof. apply (@page_links_gaps 7 20). lia. Defined.

(** ** The default order *)

(** X26.  A list query without [sort] is answered exactly as the same query with
    [sort: newest]. *)
Theorem list_default_sort {rt : Runtime} (o : list (string * jsval))
  (s : ProductStore) :
  prop o "sort" = JUndefined ->
  productList (JObject o) s
  = productList (JObject (("sort", JString "newest") :: o)) s.
Proof.
  intros Hsort. unfold productList, listQuerySchema.
  cbn [prop String.eqb Ascii.eqb Bool.eqb]. rewrite Hsort.
  change (z_optional (z_enum sortOrders) (JString "newest"))
    with (Some (Some "newest")).
  change (z_optional (z_enum sortOrders) JUndefined)
    with (@Some (option string) None).
  unfold and_then.
  destruct (z_optional (z_enum categories) _) as [c|]; [|reflexivity].
  destruct (pageSchema _) as [pg|]; [|reflexivity].
  destruct (pageSizeSchema _) as [ps|]; [|reflexivity].
  destruct (z_optional _ (prop o "available")) as [a|]; [|reflexivity].
  destruct (z_optional _ (prop o "featured")) as [f|]; reflexivity.
Qed.

Lemma list_default_sort_witness :
  productList (rt := example_runtime) (JObject []) two_products
  = productList (rt := example_runtime)
      (JObject [("sort", JString "newest")]) two_products.
Proof.
  apply (@list_default_sort example_runtime [] two_products). reflexivity.
Defined.
